(** * DQA dashboard: workflow automation and notification engine

    A shallow embedding of the engine that lives in [App] (the change
    detector, the automated task completion effect and the invoice and
    escalation handlers), of the gates that [TaskBoard], [DashboardTracker],
    [InvoiceManager] and [EscalationModal] put in front of those handlers,
    and the properties of the specification checked against them; then of
    the code around the engine: the row mappers and the session of
    [storageService], the inventory workflow of [InventoryManager], the
    rows of [DashboardTracker] and the counters of [DashboardView].

    Conventions.
    - A TypeScript string enum is an inductive type; [===] on it is the
      boolean equality of that type.
    - An optional field [f?: T] is an [option T]; JavaScript truthiness of an
      optional string is [truthy] ([undefined] and the empty string are
      falsy).
    - [storageService.*] calls are fire-and-forget: a handler is modelled by
      the list of commands it issues, in program order.
    - [Date.now()] is read by the caller and passed as [now]; one synchronous
      handler run sees one reading. *)

From Stdlib Require Import List String Ascii ZArith Bool Arith Lia.
From Stdlib Require Import DecimalString.
Import ListNotations.
Local Open Scope string_scope.
Local Open Scope list_scope.

Set Implicit Arguments.

(* ================================================================== *)
(** ** JavaScript helpers *)

(** [!!s] for an optional string. *)
Definition truthy (s : option string) : bool :=
  match s with
  | Some v => negb (v =? "")
  | None => false
  end.

(** [a || b] where [a] is an optional string and [b] a string. *)
Definition orElse (a : option string) (b : string) : string :=
  match a with
  | Some v => if v =? "" then b else v
  | None => b
  end.

(** Truthiness of a possibly [undefined] object. *)
Definition isSome {A : Type} (o : option A) : bool :=
  match o with
  | Some _ => true
  | None => false
  end.

(** [arr.includes(x)] on an array of strings. *)
Definition includes (arr : list string) (x : string) : bool :=
  existsb (fun y => y =? x) arr.

(** [arr.some(p)] and [arr.every(p)] are [existsb] and [forallb];
    [arr.find(p)] is [find]; [arr.forEach(f)] with [f] issuing effects is
    [flat_map]. *)

(** Template-literal rendering of a number. *)
Definition showZ (z : Z) : string := NilZero.string_of_int (Z.to_int z).

(** Template-literal rendering of an optional string. *)
Definition showOpt (s : option string) : string :=
  match s with
  | Some v => v
  | None => "undefined"
  end.

(* ================================================================== *)
(** ** Data model ([types.ts]) *)

Module UserRole.
Inductive t := MANAGER | AGENT.
Definition eqb (a b : t) : bool :=
  match a, b with
  | MANAGER, MANAGER | AGENT, AGENT => true
  | _, _ => false
  end.
End UserRole.

Module User.
Record t := mk {
  id : string;
  username : string;
  name : string;
  role : UserRole.t
}.
End User.

Module TaskStatus.
Inductive t := TODO | IN_PROGRESS | ON_HOLD | DONE.
Definition eqb (a b : t) : bool :=
  match a, b with
  | TODO, TODO | IN_PROGRESS, IN_PROGRESS | ON_HOLD, ON_HOLD | DONE, DONE => true
  | _, _ => false
  end.
(** The enum's string value. *)
Definition value (s : t) : string :=
  match s with
  | TODO => "TODO"
  | IN_PROGRESS => "IN_PROGRESS"
  | ON_HOLD => "ON_HOLD"
  | DONE => "DONE"
  end.
(** [status.replace('_', ' ')]: the first underscore becomes a space. *)
Definition label (s : t) : string :=
  match s with
  | TODO => "TODO"
  | IN_PROGRESS => "IN PROGRESS"
  | ON_HOLD => "ON HOLD"
  | DONE => "DONE"
  end.
End TaskStatus.

Module TaskPriority.
Inductive t := LOW | MEDIUM | HIGH | CRITICAL.
End TaskPriority.

Module TaskType.
Inductive t := AUGMENTING | QA | CHECK_404 | INVOICE_PROCESSING | DATA_REFRESHER.
Definition eqb (a b : t) : bool :=
  match a, b with
  | AUGMENTING, AUGMENTING | QA, QA | CHECK_404, CHECK_404
  | INVOICE_PROCESSING, INVOICE_PROCESSING | DATA_REFRESHER, DATA_REFRESHER => true
  | _, _ => false
  end.
End TaskType.

Module TaskNote.
Record t := mk {
  id : string;
  authorId : string;
  authorName : string;
  text : string;
  timestamp : Z
}.
End TaskNote.

Module AttachmentType.
Inductive t := pdf | csv | img | doc.
End AttachmentType.

Module TaskAttachment.
Record t := mk {
  name : string;
  url : option string;
  type : AttachmentType.t
}.
End TaskAttachment.

Module Task.
Record t := mk {
  id : string;
  title : string;
  description : string;
  assigneeId : string;
  status : TaskStatus.t;
  priority : TaskPriority.t;
  type : TaskType.t;
  tags : option (list string);
  dueDate : string;
  createdAt : Z;
  completedAt : option Z;
  notes : option (list TaskNote.t);
  attachments : option (list TaskAttachment.t);
  isEscalated : option bool;
  inventoryFileId : option string;
  inventoryItemIds : option (list string)
}.

(** [{ ...task, status: s }] *)
Definition with_status (s : TaskStatus.t) (x : t) : t :=
  mk (id x) (title x) (description x) (assigneeId x) s (priority x) (type x)
     (tags x) (dueDate x) (createdAt x) (completedAt x) (notes x)
     (attachments x) (isEscalated x) (inventoryFileId x) (inventoryItemIds x).

(** [{ ...task, completedAt: c }] *)
Definition with_completedAt (c : Z) (x : t) : t :=
  mk (id x) (title x) (description x) (assigneeId x) (status x) (priority x)
     (type x) (tags x) (dueDate x) (createdAt x) (Some c) (notes x)
     (attachments x) (isEscalated x) (inventoryFileId x) (inventoryItemIds x).

(** [{ ...task, isEscalated: b }] *)
Definition with_isEscalated (b : bool) (x : t) : t :=
  mk (id x) (title x) (description x) (assigneeId x) (status x) (priority x)
     (type x) (tags x) (dueDate x) (createdAt x) (completedAt x) (notes x)
     (attachments x) (Some b) (inventoryFileId x) (inventoryItemIds x).

(** [{ ...task, notes: n }] *)
Definition with_notes (n : list TaskNote.t) (x : t) : t :=
  mk (id x) (title x) (description x) (assigneeId x) (status x) (priority x)
     (type x) (tags x) (dueDate x) (createdAt x) (completedAt x) (Some n)
     (attachments x) (isEscalated x) (inventoryFileId x) (inventoryItemIds x).

(** [{ ...task, assigneeId: a, dueDate: d, status: s }] *)
Definition with_sync (a d : string) (s : TaskStatus.t) (x : t) : t :=
  mk (id x) (title x) (description x) a s (priority x) (type x)
     (tags x) d (createdAt x) (completedAt x) (notes x)
     (attachments x) (isEscalated x) (inventoryFileId x) (inventoryItemIds x).
End Task.

Module EscalationMessage.
Record t := mk {
  id : string;
  authorId : string;
  authorName : string;
  role : UserRole.t;
  text : string;
  timestamp : Z
}.
End EscalationMessage.

Module EscalationStatus.
Inductive t := PENDING | RESPONDED | CLOSED.
Definition eqb (a b : t) : bool :=
  match a, b with
  | PENDING, PENDING | RESPONDED, RESPONDED | CLOSED, CLOSED => true
  | _, _ => false
  end.
Definition value (s : t) : string :=
  match s with
  | PENDING => "PENDING"
  | RESPONDED => "RESPONDED"
  | CLOSED => "CLOSED"
  end.
End EscalationStatus.

Module Escalation.
Record t := mk {
  id : string;
  taskId : string;
  taskTitle : string;
  agentId : string;
  agentName : string;
  link : option string;
  history : list EscalationMessage.t;
  status : EscalationStatus.t;
  createdAt : Z;
  updatedAt : Z
}.

(** [{ ...esc, status: s, updatedAt: u }] *)
Definition with_status (s : EscalationStatus.t) (u : Z) (x : t) : t :=
  mk (id x) (taskId x) (taskTitle x) (agentId x) (agentName x) (link x)
     (history x) s (createdAt x) u.

(** [{ ...esc, history: h, status: s, updatedAt: u }] *)
Definition with_reply (h : list EscalationMessage.t) (s : EscalationStatus.t)
    (u : Z) (x : t) : t :=
  mk (id x) (taskId x) (taskTitle x) (agentId x) (agentName x) (link x)
     h s (createdAt x) u.
End Escalation.

Module InventoryStatus.
Inductive t := PENDING | ASSIGNED_AUGMENTATION | AUGMENTED | ASSIGNED_QA | QA_COMPLETE.
Definition eqb (a b : t) : bool :=
  match a, b with
  | PENDING, PENDING | ASSIGNED_AUGMENTATION, ASSIGNED_AUGMENTATION
  | AUGMENTED, AUGMENTED | ASSIGNED_QA, ASSIGNED_QA | QA_COMPLETE, QA_COMPLETE => true
  | _, _ => false
  end.
End InventoryStatus.

Module InventoryItem.
Record t := mk {
  id : string;
  productId : string;
  productName : string;
  model : string;
  mfr : string;
  studio : string;
  status : InventoryStatus.t;
  assigneeId : option string
}.
End InventoryItem.

Module InventoryFile.
Record t := mk {
  id : string;
  fileName : string;
  uploadDate : Z;
  rowCount : Z;
  data : list InventoryItem.t
}.
End InventoryFile.

Module InvoiceFileType.
Inductive t := pdf | csv.
End InvoiceFileType.

Module InvoiceFileMeta.
Record t := mk {
  name : string;
  size : string;
  type : InvoiceFileType.t;
  content : option string
}.
End InvoiceFileMeta.

Module InvoiceStatus.
Inductive t := PENDING | ASSIGNED | COMPLETED | UPLOADED.
Definition eqb (a b : t) : bool :=
  match a, b with
  | PENDING, PENDING | ASSIGNED, ASSIGNED | COMPLETED, COMPLETED | UPLOADED, UPLOADED => true
  | _, _ => false
  end.
Definition value (s : t) : string :=
  match s with
  | PENDING => "PENDING"
  | ASSIGNED => "ASSIGNED"
  | COMPLETED => "COMPLETED"
  | UPLOADED => "UPLOADED"
  end.
End InvoiceStatus.

Module Invoice.
Record t := mk {
  id : string;
  referenceName : string;
  status : InvoiceStatus.t;
  pdfFile : InvoiceFileMeta.t;
  csvFile : option InvoiceFileMeta.t;
  finalCsvFile : option InvoiceFileMeta.t;
  assigneeId : option string;
  assigneeName : option string;
  startDate : option string;
  dueDate : option string;
  isPreProcessed : bool;
  createdAt : Z;
  completedAt : option Z
}.

(** [{ ...invoice, status: s }] *)
Definition with_status (s : InvoiceStatus.t) (x : t) : t :=
  mk (id x) (referenceName x) s (pdfFile x) (csvFile x) (finalCsvFile x)
     (assigneeId x) (assigneeName x) (startDate x) (dueDate x)
     (isPreProcessed x) (createdAt x) (completedAt x).

(** [{ ...invoice, assigneeId, assigneeName, startDate, dueDate, status: 'ASSIGNED' }] *)
Definition with_assignment (a : string) (n : option string) (sd dd : string) (x : t) : t :=
  mk (id x) (referenceName x) InvoiceStatus.ASSIGNED (pdfFile x) (csvFile x)
     (finalCsvFile x) (Some a) n (Some sd) (Some dd)
     (isPreProcessed x) (createdAt x) (completedAt x).

(** [{ ...invoice, status: 'COMPLETED', completedAt: c, finalCsvFile: f }] *)
Definition with_completion (c : Z) (f : option InvoiceFileMeta.t) (x : t) : t :=
  mk (id x) (referenceName x) InvoiceStatus.COMPLETED (pdfFile x) (csvFile x)
     f (assigneeId x) (assigneeName x) (startDate x) (dueDate x)
     (isPreProcessed x) (createdAt x) (Some c).
End Invoice.

(* ================================================================== *)
(** ** Commands to the storage collaborator ([storageService]) *)

Inductive Command :=
| saveInvoice (i : Invoice.t)
| deleteInvoice (id : string)
| addTask (t : Task.t)
| updateTask (t : Task.t)
| deleteTask (id : string)
| saveEscalation (e : Escalation.t).

Definition isAddTask (c : Command) : bool :=
  match c with
  | addTask _ => true
  | _ => false
  end.


(** The task row a command writes, if any. *)
Definition commandTaskId (c : Command) : option string :=
  match c with
  | addTask t | updateTask t => Some (Task.id t)
  | deleteTask i => Some i
  | _ => None
  end.

(* ================================================================== *)
(** ** Automated task completion ([App], second effect) *)

(** [escalations.some(e => e.taskId === task.id && e.status !== 'CLOSED')] *)
Definition hasActiveEscalation (escalations : list Escalation.t) (task : Task.t) : bool :=
  existsb (fun e => (Escalation.taskId e =? Task.id task)
                    && negb (EscalationStatus.eqb (Escalation.status e) EscalationStatus.CLOSED))
          escalations.

(** [inventories.find(inv => inv.id === task.inventoryFileId)] *)
Definition findInventory (inventories : list InventoryFile.t) (fileId : option string)
  : option InventoryFile.t :=
  find (fun inv => match fileId with
                   | Some f => InventoryFile.id inv =? f
                   | None => false
                   end) inventories.

(** [inventory.data.filter(item => task.inventoryItemIds?.includes(item.id))] *)
Definition relevantItems (inventory : InventoryFile.t) (itemIds : option (list string))
  : list InventoryItem.t :=
  filter (fun item => match itemIds with
                      | Some ids => includes ids (InventoryItem.id item)
                      | None => false
                      end) (InventoryFile.data inventory).

(** The callback of [relevantItems.every]. *)
Definition itemComplete (ty : TaskType.t) (item : InventoryItem.t) : bool :=
  if TaskType.eqb ty TaskType.QA
  then InventoryStatus.eqb (InventoryItem.status item) InventoryStatus.QA_COMPLETE
  else InventoryStatus.eqb (InventoryItem.status item) InventoryStatus.AUGMENTED
       || InventoryStatus.eqb (InventoryItem.status item) InventoryStatus.QA_COMPLETE.

(** [{ ...task, status: TaskStatus.DONE, completedAt: Date.now() }] *)
Definition markDone (now : Z) (task : Task.t) : Task.t :=
  Task.with_completedAt now (Task.with_status TaskStatus.DONE task).

(** The body of [tasks.forEach(task => ...)]. *)
Definition autoCompleteTask (inventories : list InventoryFile.t)
    (escalations : list Escalation.t) (now : Z) (task : Task.t) : list Command :=
  if TaskStatus.eqb (Task.status task) TaskStatus.DONE then [] else
  if negb (truthy (Task.inventoryFileId task))
     || match Task.inventoryItemIds task with
        | None => true
        | Some ids => (List.length ids =? 0)%nat
        end
  then [] else
  if hasActiveEscalation escalations task then [] else
  match findInventory inventories (Task.inventoryFileId task) with
  | None => []
  | Some inventory =>
      let relevant := relevantItems inventory (Task.inventoryItemIds task) in
      if (List.length relevant =? 0)%nat then [] else
      if forallb (itemComplete (Task.type task)) relevant
      then [updateTask (markDone now task)]
      else []
  end.

(** The effect itself. *)
Definition autoCompleteEffect (tasks : list Task.t) (inventories : list InventoryFile.t)
    (escalations : list Escalation.t) (now : Z) : list Command :=
  if (List.length tasks =? 0)%nat || (List.length inventories =? 0)%nat then []
  else flat_map (autoCompleteTask inventories escalations now) tasks.

(* ================================================================== *)
(** ** Change detection and notifications ([App], first effect) *)

(** What the change detector does besides updating its refs: a call of
    [addNotification], or the webhook request of [sendToSlack]. *)
Inductive Output :=
| addNotification (title message : string) (playSound : bool)
| slackPost (webhookUrl text : string).

Definition isNotification (o : Output) : bool :=
  match o with
  | addNotification _ _ _ => true
  | slackPost _ _ => false
  end.

Definition isSlackPost (o : Output) : bool := negb (isNotification o).

(** The double quote character of the message templates. *)
Definition dq : string := String (ascii_of_nat 34) EmptyString.

(** [sendToSlack]: nothing is sent unless a webhook URL is stored under
    [dqa_slack_webhook]. *)
Definition sendToSlack (webhook : option string) (message : string) : list Output :=
  match webhook with
  | Some url => if url =? "" then [] else [slackPost url message]
  | None => []
  end.

(** The refs of the change detector. *)
Record Refs := mkRefs {
  prevTasksRef : list Task.t;
  prevInvoicesRef : list Invoice.t;
  prevEscalationsRef : list Escalation.t;
  isFirstLoad : bool
}.

(** The refs of a freshly mounted [App]. *)
Definition initialRefs : Refs := mkRefs [] [] [] true.

(** [x === currentUser.id || currentUser.role === UserRole.MANAGER] *)
Definition assigneeOrManager (currentUser : User.t) (assigneeId : option string) : bool :=
  match assigneeId with
  | Some a => a =? User.id currentUser
  | None => false
  end || UserRole.eqb (User.role currentUser) UserRole.MANAGER.

(** [currentUser.role === UserRole.MANAGER || newEsc.agentId === currentUser.id] *)
Definition managerOrAgent (currentUser : User.t) (esc : Escalation.t) : bool :=
  UserRole.eqb (User.role currentUser) UserRole.MANAGER
  || (Escalation.agentId esc =? User.id currentUser).

(** [users.find(u => u.id === id)?.name || 'someone'] *)
Definition assigneeName (users : list User.t) (id : string) : string :=
  match find (fun u => User.id u =? id) users with
  | Some u => if User.name u =? "" then "someone" else User.name u
  | None => "someone"
  end.

(** 1. Detect task changes: the callback of [tasks.forEach]. *)
Definition detectTask (currentUser : User.t) (users : list User.t)
    (prevTasks : list Task.t) (newTask : Task.t) : list Output :=
  match find (fun t => Task.id t =? Task.id newTask) prevTasks with
  | None =>
      if assigneeOrManager currentUser (Some (Task.assigneeId newTask))
      then [addNotification "New Task Assigned"
              ("Task " ++ dq ++ Task.title newTask ++ dq ++ " assigned to "
               ++ assigneeName users (Task.assigneeId newTask) ++ ".") true]
      else []
  | Some oldTask =>
      if negb (TaskStatus.eqb (Task.status oldTask) (Task.status newTask)) then
        if assigneeOrManager currentUser (Some (Task.assigneeId newTask))
        then
          let isComplete := TaskStatus.eqb (Task.status newTask) TaskStatus.DONE in
          [addNotification (if isComplete then "Task Completed" else "Task Updated")
             (dq ++ Task.title newTask ++ dq ++ " moved to "
              ++ TaskStatus.label (Task.status newTask) ++ ".") true]
        else []
      else []
  end.

(** 2. Detect invoice changes: the callback of [invoices.forEach]. *)
Definition detectInvoice (webhook : option string) (currentUser : User.t)
    (prevInvoices : list Invoice.t) (newInv : Invoice.t) : list Output :=
  match find (fun i => Invoice.id i =? Invoice.id newInv) prevInvoices with
  | None =>
      if assigneeOrManager currentUser (Invoice.assigneeId newInv)
      then [addNotification "New Invoice Slot"
              ("Invoice " ++ dq ++ Invoice.referenceName newInv ++ dq ++ " created.") true]
      else []
  | Some oldInv =>
      (if negb (InvoiceStatus.eqb (Invoice.status oldInv) InvoiceStatus.COMPLETED)
          && InvoiceStatus.eqb (Invoice.status newInv) InvoiceStatus.COMPLETED
       then
         if UserRole.eqb (User.role currentUser) UserRole.MANAGER then
           let msg := ("âœ… Invoice Completed: " ++ dq ++ Invoice.referenceName newInv
                       ++ dq ++ " by " ++ showOpt (Invoice.assigneeName newInv)
                       ++ ". Ready for upload.")%string in
           addNotification "Invoice Ready" msg true :: sendToSlack webhook msg
         else []
       else [])
      ++
      (if negb (InvoiceStatus.eqb (Invoice.status oldInv) (Invoice.status newInv))
          && negb (InvoiceStatus.eqb (Invoice.status newInv) InvoiceStatus.COMPLETED)
       then
         if assigneeOrManager currentUser (Invoice.assigneeId newInv)
         then [addNotification "Invoice Status"
                 (dq ++ Invoice.referenceName newInv ++ dq ++ " is now "
                  ++ InvoiceStatus.value (Invoice.status newInv) ++ ".") true]
         else []
       else [])
  end.

(** [newEsc.history[newEsc.history.length - 1]] *)
Definition lastMessage (esc : Escalation.t) : option EscalationMessage.t :=
  nth_error (Escalation.history esc) (List.length (Escalation.history esc) - 1).

(** The text of the escalation-raised notification and alert. *)
Definition escalationRaisedMessage (newEsc : Escalation.t) : string :=
  "ðŸš¨ Escalation Raised: " ++ dq ++ Escalation.taskTitle newEsc ++ dq
  ++ " by " ++ Escalation.agentName newEsc ++ ".".

(** 3. Detect escalations: the callback of [escalations.forEach]. *)
Definition detectEscalation (webhook : option string) (currentUser : User.t)
    (prevEscalations : list Escalation.t) (newEsc : Escalation.t) : list Output :=
  match find (fun e => Escalation.id e =? Escalation.id newEsc) prevEscalations with
  | None =>
      if managerOrAgent currentUser newEsc then
        let msg := escalationRaisedMessage newEsc in
        addNotification "Escalation Raised" msg true
        :: (if negb (UserRole.eqb (User.role currentUser) UserRole.MANAGER)
            then sendToSlack webhook msg else [])
      else []
  | Some oldEsc =>
      if negb (EscalationStatus.eqb (Escalation.status oldEsc) (Escalation.status newEsc)) then
        if managerOrAgent currentUser newEsc
        then [addNotification "Escalation Update"
                ("Escalation for " ++ dq ++ Escalation.taskTitle newEsc ++ dq ++ " is "
                 ++ EscalationStatus.value (Escalation.status newEsc) ++ ".") true]
        else []
      else if (List.length (Escalation.history oldEsc) <? List.length (Escalation.history newEsc))%nat then
        match lastMessage newEsc with
        | Some lastMsg =>
            if negb (EscalationMessage.authorId lastMsg =? User.id currentUser)
            then [addNotification "New Message"
                    ("New reply in escalation for " ++ dq ++ Escalation.taskTitle newEsc
                     ++ dq ++ ".") true]
            else []
        | None => []
        end
      else []
  end.

(** The notification effect: the new refs and what was emitted. *)
Definition notificationEffect (refs : Refs) (webhook : option string)
    (currentUser : option User.t) (users : list User.t) (tasks : list Task.t)
    (invoices : list Invoice.t) (escalations : list Escalation.t)
  : Refs * list Output :=
  if isFirstLoad refs then
    if (0 <? List.length tasks)%nat || (0 <? List.length invoices)%nat
    then (mkRefs tasks invoices escalations false, [])
    else (refs, [])
  else
    match currentUser with
    | None => (refs, [])
    | Some currentUser =>
        (mkRefs tasks invoices escalations (isFirstLoad refs),
         flat_map (detectTask currentUser users (prevTasksRef refs)) tasks
         ++ flat_map (detectInvoice webhook currentUser (prevInvoicesRef refs)) invoices
         ++ flat_map (detectEscalation webhook currentUser (prevEscalationsRef refs)) escalations)
    end.

(* ================================================================== *)
(** ** One reconciliation cycle

    A fresh set of collections arrives; React runs the two effects of [App]
    in the order they are declared. *)

Record Collections := mkCollections {
  users : list User.t;
  tasks : list Task.t;
  inventories : list InventoryFile.t;
  invoices : list Invoice.t;
  escalations : list Escalation.t
}.

Record CycleResult := mkCycleResult {
  refsAfter : Refs;
  outputs : list Output;
  commands : list Command
}.

Definition cycle (refs : Refs) (webhook : option string) (currentUser : option User.t)
    (c : Collections) (now : Z) : CycleResult :=
  let r := notificationEffect refs webhook currentUser (users c) (tasks c)
                              (invoices c) (escalations c) in
  mkCycleResult (fst r) (snd r)
                (autoCompleteEffect (tasks c) (inventories c) (escalations c) now).

(* ================================================================== *)
(** ** Handlers of [App] *)

Section Handlers.

(** [new Date(ms).toISOString()], the host's rendering of a time stamp. *)
Variable toISOString : Z -> string.

(** [handleTaskUpdate], the [onUpdateTask] of every component. *)
Definition handleTaskUpdate (updatedTask : Task.t) : list Command :=
  [updateTask updatedTask].

(** Deterministic ids of the two tasks an invoice owns. *)
Definition companionTaskId (invoiceId : string) : string := "task-" ++ invoiceId.
Definition managerTaskId (invoiceId : string) : string := "task-mgr-" ++ invoiceId.

Definition findTask (tasks : list Task.t) (id : string) : option Task.t :=
  find (fun t => Task.id t =? id) tasks.

Definition handleAddInvoice (now : Z) (newInvoice : Invoice.t) : list Command :=
  let newTask :=
    Task.mk (companionTaskId (Invoice.id newInvoice))
      ("Process Invoice: " ++ Invoice.referenceName newInvoice)
      ("Invoice processing task created for " ++ Invoice.referenceName newInvoice
       ++ ". Link to invoice ID: " ++ Invoice.id newInvoice)
      (orElse (Invoice.assigneeId newInvoice) "")
      TaskStatus.TODO TaskPriority.MEDIUM TaskType.INVOICE_PROCESSING
      (Some ["Invoice"; "Administrative"])
      (orElse (Invoice.dueDate newInvoice) (toISOString (now + 3 * 86400000)))
      now None None
      (Some [TaskAttachment.mk (InvoiceFileMeta.name (Invoice.pdfFile newInvoice))
                               (Some "#") AttachmentType.pdf])
      None None None in
  [saveInvoice newInvoice; addTask newTask].

(** The manager-review task built on the COMPLETED edge. *)
Definition managerTask (now : Z) (manager : User.t) (updatedInvoice : Invoice.t) : Task.t :=
  Task.mk (managerTaskId (Invoice.id updatedInvoice))
    ("Upload to Beam: " ++ Invoice.referenceName updatedInvoice)
    ("The invoice " ++ Invoice.referenceName updatedInvoice
     ++ " has been processed by the agent. Please upload the final deliverable to Beam Dynamics and confirm in the Studio Invoice tab.")
    (User.id manager)
    TaskStatus.TODO TaskPriority.HIGH TaskType.INVOICE_PROCESSING
    (Some ["Manager Action"; "Upload"; "Invoice"])
    (toISOString (now + 86400000))
    now None None
    (Some match Invoice.finalCsvFile updatedInvoice with
          | Some f => [TaskAttachment.mk (InvoiceFileMeta.name f) (Some "#") AttachmentType.csv]
          | None => []
          end)
    None None None.

(** [oldInvoice?.status !== 'COMPLETED' && updatedInvoice.status === 'COMPLETED'] *)
Definition crossesCompletedEdge (oldInvoice : option Invoice.t) (updatedInvoice : Invoice.t) : bool :=
  match oldInvoice with
  | Some o => negb (InvoiceStatus.eqb (Invoice.status o) InvoiceStatus.COMPLETED)
  | None => true
  end && InvoiceStatus.eqb (Invoice.status updatedInvoice) InvoiceStatus.COMPLETED.

(** [users.find(u => u.role === UserRole.MANAGER)] *)
Definition findManager (users : list User.t) : option User.t :=
  find (fun u => UserRole.eqb (User.role u) UserRole.MANAGER) users.

(** The companion-task sync of [handleUpdateInvoice]. *)
Definition syncCompanionTask (tasks : list Task.t) (updatedInvoice : Invoice.t) : list Command :=
  match findTask tasks (companionTaskId (Invoice.id updatedInvoice)) with
  | Some linkedTask =>
      [updateTask
         (Task.with_sync
            (orElse (Invoice.assigneeId updatedInvoice) (Task.assigneeId linkedTask))
            (orElse (Invoice.dueDate updatedInvoice) (Task.dueDate linkedTask))
            (if InvoiceStatus.eqb (Invoice.status updatedInvoice) InvoiceStatus.COMPLETED
                || InvoiceStatus.eqb (Invoice.status updatedInvoice) InvoiceStatus.UPLOADED
             then TaskStatus.DONE else Task.status linkedTask)
            linkedTask)]
  | None => []
  end.

(** The manager-review step of [handleUpdateInvoice]. *)
Definition createManagerTask (invoices : list Invoice.t) (users : list User.t) (now : Z)
    (updatedInvoice : Invoice.t) : list Command :=
  let oldInvoice := find (fun i => Invoice.id i =? Invoice.id updatedInvoice) invoices in
  if crossesCompletedEdge oldInvoice updatedInvoice then
    match findManager users with
    | Some manager => [addTask (managerTask now manager updatedInvoice)]
    | None => []
    end
  else [].

(** The upload-confirmation step of [handleUpdateInvoice]. *)
Definition confirmManagerTask (tasks : list Task.t) (now : Z) (updatedInvoice : Invoice.t)
  : list Command :=
  if InvoiceStatus.eqb (Invoice.status updatedInvoice) InvoiceStatus.UPLOADED then
    match findTask tasks (managerTaskId (Invoice.id updatedInvoice)) with
    | Some mgrTask => [updateTask (markDone now mgrTask)]
    | None => []
    end
  else [].

Definition handleUpdateInvoice (invoices : list Invoice.t) (tasks : list Task.t)
    (users : list User.t) (now : Z) (updatedInvoice : Invoice.t) : list Command :=
  [saveInvoice updatedInvoice]
  ++ syncCompanionTask tasks updatedInvoice
  ++ createManagerTask invoices users now updatedInvoice
  ++ confirmManagerTask tasks now updatedInvoice.

Definition handleDeleteInvoice (tasks : list Task.t) (id : string) : list Command :=
  [deleteInvoice id]
  ++ match findTask tasks (companionTaskId id) with
     | Some t1 => [deleteTask (Task.id t1)]
     | None => []
     end
  ++ match findTask tasks (managerTaskId id) with
     | Some t2 => [deleteTask (Task.id t2)]
     | None => []
     end.

Definition handleEscalateTask (currentUser : option User.t) (task : Task.t)
    (reason : string) (link : option string) (now : Z) : list Command :=
  match currentUser with
  | None => []
  | Some u =>
      let initialMessage :=
        EscalationMessage.mk ("msg-" ++ showZ now) (User.id u) (User.name u)
                             (User.role u) reason now in
      let escalation :=
        Escalation.mk ("esc-" ++ showZ now) (Task.id task) (Task.title task)
                      (User.id u) (User.name u) link [initialMessage]
                      EscalationStatus.PENDING now now in
      [saveEscalation escalation; updateTask (Task.with_isEscalated true task)]
  end.

Definition handleEscalationReply (currentUser : option User.t) (esc : Escalation.t)
    (messageText : string) (now : Z) : list Command :=
  match currentUser with
  | None => []
  | Some u =>
      let newMessage :=
        EscalationMessage.mk ("msg-" ++ showZ now) (User.id u) (User.name u)
                             (User.role u) messageText now in
      let newStatus :=
        if UserRole.eqb (User.role u) UserRole.MANAGER
        then EscalationStatus.RESPONDED else EscalationStatus.PENDING in
      [saveEscalation
         (Escalation.with_reply (Escalation.history esc ++ [newMessage]) newStatus now esc)]
  end.

Definition handleCloseEscalation (tasks : list Task.t) (esc : Escalation.t) (now : Z)
  : list Command :=
  saveEscalation (Escalation.with_status EscalationStatus.CLOSED now esc)
  :: match findTask tasks (Escalation.taskId esc) with
     | Some task => [updateTask (Task.with_isEscalated false task)]
     | None => []
     end.

End Handlers.

(* ================================================================== *)
(** ** User actions on tasks ([TaskBoard], [DashboardTracker])

    A control that is not rendered, or is disabled, yields [None]; a click
    on a live control yields the commands of the handler behind it. *)

Module TaskBoard.

Definition isAutomatedTask (type : TaskType.t) : bool :=
  TaskType.eqb type TaskType.AUGMENTING || TaskType.eqb type TaskType.QA.

(** [currentUser.role === UserRole.MANAGER || selectedTask.assigneeId === currentUser.id] *)
Definition canEditTask (currentUser : User.t) (selectedTask : Task.t) : bool :=
  UserRole.eqb (User.role currentUser) UserRole.MANAGER
  || (Task.assigneeId selectedTask =? User.id currentUser).

(** [escalations.filter(e => e.taskId === selectedTask.id)] *)
Definition currentTaskEscalations (escalations : list Escalation.t) (selectedTask : Task.t)
  : list Escalation.t :=
  filter (fun e => Escalation.taskId e =? Task.id selectedTask) escalations.

Definition activeEscalations (escalations : list Escalation.t) (selectedTask : Task.t)
  : list Escalation.t :=
  filter (fun e => negb (EscalationStatus.eqb (Escalation.status e) EscalationStatus.CLOSED))
         (currentTaskEscalations escalations selectedTask).

Definition hasActiveEscalations (escalations : list Escalation.t) (selectedTask : Task.t) : bool :=
  (0 <? List.length (activeEscalations escalations selectedTask))%nat.

Definition handleStatusChange (currentUser : User.t) (task : Task.t)
    (newStatus : TaskStatus.t) (note : option string) (now : Z) : list Command :=
  let updatedTask := Task.with_status newStatus task in
  let updatedTask :=
    if truthy note then
      let newNote :=
        TaskNote.mk (showZ now) (User.id currentUser) (User.name currentUser)
          ("Status changed to " ++ TaskStatus.value newStatus ++ ": " ++ showOpt note) now in
      Task.with_notes (newNote :: match Task.notes task with
                                  | Some ns => ns
                                  | None => []
                                  end) updatedTask
    else updatedTask in
  handleTaskUpdate updatedTask.

(** The [disabled] attribute of the status [<select>]. *)
Definition statusSelectDisabled (currentUser : User.t) (selectedTask : Task.t) : bool :=
  negb (canEditTask currentUser selectedTask)
  || (TaskStatus.eqb (Task.status selectedTask) TaskStatus.DONE
      && isAutomatedTask (Task.type selectedTask)).

(** Which branch of the complete-button logic renders the [Mark Complete] button. *)
Definition markCompleteShown (currentUser : User.t) (escalations : list Escalation.t)
    (selectedTask : Task.t) : bool :=
  canEditTask currentUser selectedTask
  && TaskStatus.eqb (Task.status selectedTask) TaskStatus.IN_PROGRESS
  && negb (isAutomatedTask (Task.type selectedTask))
  && negb (TaskType.eqb (Task.type selectedTask) TaskType.INVOICE_PROCESSING)
  && negb (hasActiveEscalations escalations selectedTask).

(** What a user can do to the status of the task open in the detail modal. *)
Inductive Action :=
| SelectStatus (value : TaskStatus.t)   (* the status select's onChange *)
| MarkComplete                          (* the Mark Complete button *)
| StartWorking                          (* the Start Working button *)
| Hold (reason : string).               (* Put On Hold (shown unless DONE), then
                                           the Hold button or Enter in its input *)

Definition act (currentUser : User.t) (escalations : list Escalation.t)
    (selectedTask : Task.t) (now : Z) (a : Action) : option (list Command) :=
  match a with
  | SelectStatus value =>
      if statusSelectDisabled currentUser selectedTask then None
      else Some (handleStatusChange currentUser selectedTask value None now)
  | MarkComplete =>
      if markCompleteShown currentUser escalations selectedTask
      then Some (handleStatusChange currentUser selectedTask TaskStatus.DONE None now)
      else None
  | StartWorking =>
      if canEditTask currentUser selectedTask
         && TaskStatus.eqb (Task.status selectedTask) TaskStatus.TODO
      then Some (handleStatusChange currentUser selectedTask TaskStatus.IN_PROGRESS None now)
      else None
  | Hold reason =>
      if canEditTask currentUser selectedTask
         && negb (TaskStatus.eqb (Task.status selectedTask) TaskStatus.DONE)
      then Some (handleStatusChange currentUser selectedTask TaskStatus.ON_HOLD (Some reason) now)
      else None
  end.

End TaskBoard.

Module DashboardTracker.

(** [handleStatusChange(row, newStatus)]: the status select of a tracker
    row, shown to every user and never disabled. *)
Definition handleStatusChange (originalTasks : list Task.t) (newStatus : TaskStatus.t)
  : list Command :=
  flat_map (fun task =>
              if negb (TaskStatus.eqb (Task.status task) newStatus)
              then handleTaskUpdate (Task.with_status newStatus task)
              else []) originalTasks.

End DashboardTracker.

(* ================================================================== *)
(** ** Closing an escalation ([EscalationModal]) *)

Module EscalationModal.

(** Whether the footer renders the [Mark Resolved & Close] button. *)
Definition resolveCloseShown (currentUser : User.t) (escalation : Escalation.t) : bool :=
  negb (EscalationStatus.eqb (Escalation.status escalation) EscalationStatus.CLOSED)
  && UserRole.eqb (User.role currentUser) UserRole.AGENT
  && (1 <? List.length (Escalation.history escalation))%nat.

(** A click on it: [onResolveClose], which both hosts of the modal wire to
    [onCloseEscalation(escalation)]. *)
Definition resolveClose (currentUser : User.t) (tasks : list Task.t)
    (escalation : Escalation.t) (now : Z) : option (list Command) :=
  if resolveCloseShown currentUser escalation
  then Some (handleCloseEscalation tasks escalation now)
  else None.

End EscalationModal.

(* ================================================================== *)
(** ** User actions on invoices ([InvoiceManager]) *)

Module InvoiceManager.

(** A file picked in the agent's upload input, with the outcome of
    [readFile] on it ([None]: the read was rejected). *)
Record Upload := mkUpload {
  fileName : string;
  fileSize : string;
  readResult : option string
}.

Inductive Action :=
| Assign (assigneeId startDate dueDate : string)  (* the Assign Agent select *)
| ConfirmUpload                                    (* Confirm Upload to Beam *)
| SubmitComplete (finalFile : Upload).             (* Submit & Complete *)

Definition isFinalized (invoice : Invoice.t) : bool :=
  InvoiceStatus.eqb (Invoice.status invoice) InvoiceStatus.COMPLETED
  || InvoiceStatus.eqb (Invoice.status invoice) InvoiceStatus.UPLOADED.

(** [visibleInvoices]: a manager sees every card, an agent the cards of the
    invoices assigned to them. *)
Definition isVisibleTo (currentUser : User.t) (invoice : Invoice.t) : bool :=
  UserRole.eqb (User.role currentUser) UserRole.MANAGER
  || match Invoice.assigneeId invoice with
     | Some a => a =? User.id currentUser
     | None => false
     end.

(** The invoice handed to [onUpdateInvoice], or [None] when the control is
    absent or disabled or the handler returns before the call. [today] is
    the date part of the current time. *)
Definition act (currentUser : User.t) (users : list User.t) (today : string) (now : Z)
    (invoice : Invoice.t) (a : Action) : option Invoice.t :=
  let isManager := UserRole.eqb (User.role currentUser) UserRole.MANAGER in
  match a with
  | Assign assigneeId startDate dueDate =>
      if isManager && negb (isFinalized invoice) && negb (assigneeId =? "") then
        let assignee := find (fun u => User.id u =? assigneeId) users in
        Some (Invoice.with_assignment assigneeId
                (option_map User.name assignee)
                (orElse (Some startDate) today) dueDate invoice)
      else None
  | ConfirmUpload =>
      if isManager && InvoiceStatus.eqb (Invoice.status invoice) InvoiceStatus.COMPLETED
      then Some (Invoice.with_status InvoiceStatus.UPLOADED invoice)
      else None
  | SubmitComplete finalFile =>
      if negb isManager && isVisibleTo currentUser invoice && negb (isFinalized invoice) then
        match readResult finalFile with
        | Some finalContent =>
            Some (Invoice.with_completion now
                    (Some (InvoiceFileMeta.mk (fileName finalFile) (fileSize finalFile)
                                              InvoiceFileType.csv (Some finalContent)))
                    invoice)
        | None => None
        end
      else None
  end.

End InvoiceManager.

(* ================================================================== *)
(** ** The storage collaborator

    The backing store is external: one table per collection, keyed by [id].
    [upsert] replaces the row with the same key or adds one, [insert] adds a
    row only under a fresh key, [delete] removes by key.  The collections
    pushed to [App] are the tables' contents. *)

Section Tables.
Variable A : Type.
Variable key : A -> string.

Definition hasKey (k : string) (rows : list A) : bool :=
  existsb (fun r => key r =? k) rows.

(** The row under a key, as [rows.find(r => r.id === k)] reads it. *)
Definition lookup (k : string) (rows : list A) : option A :=
  find (fun r => key r =? k) rows.

Definition upsert (x : A) (rows : list A) : list A :=
  if hasKey (key x) rows
  then map (fun r => if key r =? key x then x else r) rows
  else rows ++ [x].

Definition insert (x : A) (rows : list A) : list A :=
  if hasKey (key x) rows then rows else rows ++ [x].

Definition delete (k : string) (rows : list A) : list A :=
  filter (fun r => negb (key r =? k)) rows.
End Tables.

Definition applyCommand (c : Command) (s : Collections) : Collections :=
  match c with
  | saveInvoice i =>
      mkCollections (users s) (tasks s) (inventories s)
                    (upsert Invoice.id i (invoices s)) (escalations s)
  | deleteInvoice k =>
      mkCollections (users s) (tasks s) (inventories s)
                    (delete Invoice.id k (invoices s)) (escalations s)
  | addTask t =>
      mkCollections (users s) (insert Task.id t (tasks s)) (inventories s)
                    (invoices s) (escalations s)
  | updateTask t =>
      mkCollections (users s) (upsert Task.id t (tasks s)) (inventories s)
                    (invoices s) (escalations s)
  | deleteTask k =>
      mkCollections (users s) (delete Task.id k (tasks s)) (inventories s)
                    (invoices s) (escalations s)
  | saveEscalation e =>
      mkCollections (users s) (tasks s) (inventories s)
                    (invoices s) (upsert Escalation.id e (escalations s))
  end.

Definition applyCommands (cs : list Command) (s : Collections) : Collections :=
  fold_left (fun acc c => applyCommand c acc) cs s.

(* ================================================================== *)
(** ** The life of invoices under user actions

    A session in which users act on invoice cards, one action at a time, the
    collections being refreshed from the store between two actions.  It
    covers the life of an invoice from its creation to its deletion: slots
    are neither created nor deleted along it, and the user table may change
    at any point. *)

Module InvoiceLife.

Inductive Step :=
| UserAction (currentUser : User.t) (today : string) (now : Z)
             (invoiceId : string) (a : InvoiceManager.Action)
| UsersChanged (us : list User.t).

Section Run.
Variable toISOString : Z -> string.

(** The commands one step issues against the collections [s]. *)
Definition stepCommands (s : Collections) (st : Step) : list Command :=
  match st with
  | UserAction currentUser today now invoiceId a =>
      match find (fun i => Invoice.id i =? invoiceId) (invoices s) with
      | Some invoice =>
          match InvoiceManager.act currentUser (users s) today now invoice a with
          | Some updatedInvoice =>
              handleUpdateInvoice toISOString (invoices s) (tasks s) (users s)
                                  now updatedInvoice
          | None => []
          end
      | None => []
      end
  | UsersChanged _ => []
  end.

(** The collections after the step. *)
Definition stepStore (s : Collections) (st : Step) : Collections :=
  match st with
  | UserAction _ _ _ _ _ => applyCommands (stepCommands s st) s
  | UsersChanged us =>
      mkCollections us (tasks s) (inventories s) (invoices s) (escalations s)
  end.

(** All commands issued along a session. *)
Fixpoint run (s : Collections) (steps : list Step) : list Command :=
  match steps with
  | [] => []
  | st :: rest => stepCommands s st ++ run (stepStore s st) rest
  end.
End Run.


(** Creation of the manager-review task of invoice [invoiceId]. *)
Definition createsManagerTask (invoiceId : string) (c : Command) : bool :=
  match c with
  | addTask t => Task.id t =? managerTaskId invoiceId
  | _ => false
  end.

Definition managerTasksCreated (invoiceId : string) (cs : list Command) : nat :=
  List.length (filter (createsManagerTask invoiceId) cs).

End InvoiceLife.

(* ================================================================== *)
(** ** Derived notions used by the properties *)

(** The escalation rows a reply writes. *)
Definition replied (currentUser : User.t) (esc : Escalation.t) (text : string) (now : Z)
  : list Escalation.t :=
  flat_map (fun c => match c with saveEscalation e => [e] | _ => [] end)
           (handleEscalationReply (Some currentUser) esc text now).

(** A task as the store holds it once the commands of an automation pass
    have been applied: completed if the pass completed it. *)
Definition settleTask (inventories : list InventoryFile.t)
    (escalations : list Escalation.t) (now : Z) (task : Task.t) : Task.t :=
  match autoCompleteTask inventories escalations now task with
  | [] => task
  | _ :: _ => markDone now task
  end.

Definition writesEscalations (c : Command) : bool :=
  match c with
  | saveEscalation _ => true
  | _ => false
  end.

(* ================================================================== *)
(** ** Predicates of the specification *)

(** Some non-CLOSED escalation references task [taskId]. *)
Definition activeEscalationOn (escalations : list Escalation.t) (taskId : string) : Prop :=
  exists e, In e escalations
            /\ Escalation.taskId e = taskId
            /\ Escalation.status e <> EscalationStatus.CLOSED.

(** The completion predicate of Rule 1. *)
Definition completionPredicate (type : TaskType.t) (item : InventoryItem.t) : Prop :=
  match type with
  | TaskType.QA => InventoryItem.status item = InventoryStatus.QA_COMPLETE
  | _ => InventoryItem.status item = InventoryStatus.AUGMENTED
         \/ InventoryItem.status item = InventoryStatus.QA_COMPLETE
  end.

(** The four conditions of Rule 1 for task [T], read through the lookups of
    the pass. *)
Definition autoCompleteCondition (inventories : list InventoryFile.t)
    (escalations : list Escalation.t) (T : Task.t) : Prop :=
  exists file,
    findInventory inventories (Task.inventoryFileId T) = Some file
    /\ relevantItems file (Task.inventoryItemIds T) <> []
    /\ ~ activeEscalationOn escalations (Task.id T)
    /\ Forall (completionPredicate (Task.type T))
              (relevantItems file (Task.inventoryItemIds T)).

(** Keys are unique in a collection. *)
Definition uniqueKeys {A : Type} (key : A -> string) (rows : list A) : Prop :=
  NoDup (map key rows).

(** The flag of task [T] agrees with the escalations of [s]. *)
Definition escalatedFlagConsistent (s : Collections) (T : Task.t) : Prop :=
  Task.isEscalated T = Some true <-> activeEscalationOn (escalations s) (Task.id T).

(** [x] is the first row of [rows] under key [k]. *)
Definition firstUnder {A : Type} (key : A -> string) (k : string) (rows : list A) (x : A)
  : Prop :=
  exists before after,
    rows = before ++ x :: after
    /\ key x = k
    /\ forall r, In r before -> key r <> k.

(** No row of [rows] is under key [k]. *)
Definition noneUnder {A : Type} (key : A -> string) (k : string) (rows : list A) : Prop :=
  forall r, In r rows -> key r <> k.

(** Rule 1 in the words of the specification: the file the task references
    resolves, some row of it has its id among the task's item ids, no
    non-CLOSED escalation references the task, and every such row satisfies
    the completion predicate. *)
Definition rule1Condition (inventories : list InventoryFile.t)
    (escalations : list Escalation.t) (T : Task.t) : Prop :=
  exists fileId ids file,
    Task.inventoryFileId T = Some fileId
    /\ Task.inventoryItemIds T = Some ids
    /\ firstUnder InventoryFile.id fileId inventories file
    /\ (exists item, In item (InventoryFile.data file)
                     /\ In (InventoryItem.id item) ids)
    /\ ~ activeEscalationOn escalations (Task.id T)
    /\ (forall item, In item (InventoryFile.data file) ->
                     In (InventoryItem.id item) ids ->
                     completionPredicate (Task.type T) item).

(** Row [n] is the first row on screen with id [k]. *)
Definition firstPosition (rows : list InventoryItem.t) (k : string) (n : nat) : Prop :=
  (exists r, nth_error rows n = Some r /\ InventoryItem.id r = k)
  /\ forall m r, (m < n)%nat -> nth_error rows m = Some r -> InventoryItem.id r <> k.

(** [x] is the id of a row on screen at a position from [a] to [b], in
    either order, both included. *)
Definition between (rows : list InventoryItem.t) (a b : nat) (x : string) : Prop :=
  exists n r,
    (Nat.min a b <= n <= Nat.max a b)%nat
    /\ nth_error rows n = Some r
    /\ InventoryItem.id r = x.

(* ================================================================== *)
(** ** Scenarios

    Concrete collections in the style of the specification's scenarios,
    used to run the model. *)

Module Scenario.

Definition manager : User.t := User.mk "u1" "sadaf" "Sadaf Amrita" UserRole.MANAGER.
Definition agent : User.t := User.mk "u2" "amir" "Amir" UserRole.AGENT.
Definition otherAgent : User.t := User.mk "u3" "bea" "Bea" UserRole.AGENT.

Definition task (id : string) (type : TaskType.t) (status : TaskStatus.t)
    (assigneeId : string) (fileId : option string) (itemIds : option (list string))
  : Task.t :=
  Task.mk id ("Task " ++ id) "" assigneeId status TaskPriority.MEDIUM type None
          "2026-01-31" 1000 None None None None fileId itemIds.

Definition item (id : string) (status : InventoryStatus.t) : InventoryItem.t :=
  InventoryItem.mk id id "Lamp" "L-1" "Acme" "Studio A" status None.

(** Scenario A: a QA task in progress whose two items are QA-complete. *)
Definition t1 : Task.t :=
  task "t1" TaskType.QA TaskStatus.IN_PROGRESS "u2" (Some "f1") (Some ["i1"; "i2"]).
Definition f1 : InventoryFile.t :=
  InventoryFile.mk "f1" "studio-a.csv" 900 2
    [item "i1" InventoryStatus.QA_COMPLETE; item "i2" InventoryStatus.QA_COMPLETE].

Definition message (id : string) (author : User.t) (text : string) (at_ : Z)
  : EscalationMessage.t :=
  EscalationMessage.mk id (User.id author) (User.name author) (User.role author) text at_.

Definition escalation (id taskId : string) (history : list EscalationMessage.t)
    (status : EscalationStatus.t) : Escalation.t :=
  Escalation.mk id taskId ("Task " ++ taskId) (User.id agent) (User.name agent) None
                history status 1100 1100.

(** Scenario B: a pending escalation on [t1]. *)
Definition e1 : Escalation.t :=
  escalation "esc-1" "t1" [message "m1" agent "Item i1 looks wrong" 1100]
             EscalationStatus.PENDING.

(** Two answered escalations on the same task, flagged as escalated. *)
Definition e1answered : Escalation.t :=
  escalation "esc-1" "t1"
    [message "m1" agent "Item i1 looks wrong" 1100;
     message "m2" manager "Use the 2024 sheet" 1200]
    EscalationStatus.RESPONDED.
Definition e2 : Escalation.t :=
  escalation "esc-2" "t1" [message "m3" agent "Item i2 is missing a model" 1150]
             EscalationStatus.PENDING.
Definition t1escalated : Task.t := Task.with_isEscalated true t1.

(** An augmentation task that has not been started. *)
Definition t2 : Task.t :=
  task "t2" TaskType.AUGMENTING TaskStatus.TODO "u2" None None.

(** Scenario C: an assigned invoice and its completion. *)
Definition pdf : InvoiceFileMeta.t :=
  InvoiceFileMeta.mk "jan.pdf" "0.10 MB" InvoiceFileType.pdf None.
Definition inv1 : Invoice.t :=
  Invoice.mk "inv1" "Studio A - Jan Invoice" InvoiceStatus.ASSIGNED pdf None None
             (Some "u2") (Some "Amir") (Some "2026-01-02") (Some "2026-01-31")
             false 1000 None.
Definition inv1completed : Invoice.t := Invoice.with_completion 2000 None inv1.

Definition iso (ms : Z) : string := "1970-01-01T00:00:" ++ showZ ms.

End Scenario.

(* ================================================================== *)
(** ** Rows of the store and their mappers ([storageService])

    A row holds what the [To] mapper wrote: numeric columns hold numbers, so
    [Number(x)] is [x], and a column written from an [undefined] field reads
    back as [null]. *)

Module TaskRow.
Record t := mk {
  id : string;
  title : string;
  description : string;
  assignee_id : string;
  status : TaskStatus.t;
  priority : TaskPriority.t;
  type : TaskType.t;
  tags : option (list string);
  due_date : string;
  created_at : Z;
  completed_at : option Z;
  notes : option (list TaskNote.t);
  attachments : option (list TaskAttachment.t);
  inventory_file_id : option string;
  inventory_item_ids : option (list string);
  is_escalated : option bool
}.
End TaskRow.

(** [row.xs || []] *)
Definition orEmpty {A : Type} (xs : option (list A)) : list A :=
  match xs with
  | Some l => l
  | None => []
  end.

(** [row.n ? Number(row.n) : undefined] *)
Definition numberIfTruthy (n : option Z) : option Z :=
  match n with
  | Some z => if (z =? 0)%Z then None else Some z
  | None => None
  end.

Definition mapTaskFromDB (row : TaskRow.t) : Task.t :=
  Task.mk (TaskRow.id row) (TaskRow.title row) (TaskRow.description row)
    (TaskRow.assignee_id row) (TaskRow.status row) (TaskRow.priority row)
    (TaskRow.type row) (Some (orEmpty (TaskRow.tags row))) (TaskRow.due_date row)
    (TaskRow.created_at row) (numberIfTruthy (TaskRow.completed_at row))
    (Some (orEmpty (TaskRow.notes row))) (Some (orEmpty (TaskRow.attachments row)))
    (TaskRow.is_escalated row) (TaskRow.inventory_file_id row)
    (TaskRow.inventory_item_ids row).

Definition mapTaskToDB (task : Task.t) : TaskRow.t :=
  TaskRow.mk (Task.id task) (Task.title task) (Task.description task)
    (Task.assigneeId task) (Task.status task) (Task.priority task) (Task.type task)
    (Task.tags task) (Task.dueDate task) (Task.createdAt task) (Task.completedAt task)
    (Task.notes task) (Task.attachments task) (Task.inventoryFileId task)
    (Task.inventoryItemIds task) (Task.isEscalated task).

(** What a task becomes when it is written and read back. *)
Definition storedTask (task : Task.t) : Task.t := mapTaskFromDB (mapTaskToDB task).

Module InvoiceRow.
Record t := mk {
  id : string;
  reference_name : string;
  status : InvoiceStatus.t;
  assignee_id : option string;
  start_date : option string;
  due_date : option string;
  is_pre_processed : bool;
  pdf_file : InvoiceFileMeta.t;
  csv_file : option InvoiceFileMeta.t;
  final_csv_file : option InvoiceFileMeta.t;
  created_at : Z;
  completed_at : option Z
}.
End InvoiceRow.

(** The row has no column for [assigneeName]: the mapped invoice has none. *)
Definition mapInvoiceFromDB (row : InvoiceRow.t) : Invoice.t :=
  Invoice.mk (InvoiceRow.id row) (InvoiceRow.reference_name row) (InvoiceRow.status row)
    (InvoiceRow.pdf_file row) (InvoiceRow.csv_file row) (InvoiceRow.final_csv_file row)
    (InvoiceRow.assignee_id row) None (InvoiceRow.start_date row)
    (InvoiceRow.due_date row) (InvoiceRow.is_pre_processed row)
    (InvoiceRow.created_at row) (numberIfTruthy (InvoiceRow.completed_at row)).

Definition mapInvoiceToDB (inv : Invoice.t) : InvoiceRow.t :=
  InvoiceRow.mk (Invoice.id inv) (Invoice.referenceName inv) (Invoice.status inv)
    (Invoice.assigneeId inv) (Invoice.startDate inv) (Invoice.dueDate inv)
    (Invoice.isPreProcessed inv) (Invoice.pdfFile inv) (Invoice.csvFile inv)
    (Invoice.finalCsvFile inv) (Invoice.createdAt inv) (Invoice.completedAt inv).

Module EscalationRow.
Record t := mk {
  id : string;
  task_id : string;
  task_title : string;
  agent_id : string;
  agent_name : string;
  link : option string;
  history : option (list EscalationMessage.t);
  status : EscalationStatus.t;
  created_at : Z;
  updated_at : Z
}.
End EscalationRow.

Definition mapEscalationFromDB (row : EscalationRow.t) : Escalation.t :=
  Escalation.mk (EscalationRow.id row) (EscalationRow.task_id row)
    (EscalationRow.task_title row) (EscalationRow.agent_id row)
    (EscalationRow.agent_name row) (EscalationRow.link row)
    (orEmpty (EscalationRow.history row)) (EscalationRow.status row)
    (EscalationRow.created_at row) (EscalationRow.updated_at row).

Definition mapEscalationToDB (esc : Escalation.t) : EscalationRow.t :=
  EscalationRow.mk (Escalation.id esc) (Escalation.taskId esc) (Escalation.taskTitle esc)
    (Escalation.agentId esc) (Escalation.agentName esc) (Escalation.link esc)
    (Some (Escalation.history esc)) (Escalation.status esc)
    (Escalation.createdAt esc) (Escalation.updatedAt esc).

(* ================================================================== *)
(** ** The user session ([storageService], session part)

    The two browser storages, each read under the key [dq_user_session]. *)

Record BrowserStorage := mkBrowserStorage {
  localItem : option string;
  sessionItem : option string
}.

Section Session.

(** [JSON.stringify] on a user. *)
Variable stringify : User.t -> string.
(** [JSON.parse] read as a user; [None] when it throws (the [catch] returns
    [null]) or yields [null]. *)
Variable parse : string -> option User.t.

Definition getUserSession (st : BrowserStorage) : option User.t :=
  if truthy (localItem st) then
    match localItem st with
    | Some storedLocal => parse storedLocal
    | None => None
    end
  else if truthy (sessionItem st) then
    match sessionItem st with
    | Some storedSession => parse storedSession
    | None => None
    end
  else None.

Definition setUserSession (user : User.t) (remember : bool) (st : BrowserStorage)
  : BrowserStorage :=
  let data := stringify user in
  if remember then mkBrowserStorage (Some data) None
  else mkBrowserStorage None (Some data).

Definition clearUserSession (st : BrowserStorage) : BrowserStorage :=
  mkBrowserStorage None None.

End Session.

(* ================================================================== *)
(** ** More of [TaskBoard] *)

(** [toggleTag]: the updater passed to [setNewTaskTags]. *)
Definition toggleTag (tag : string) (prev : list string) : list string :=
  if includes prev tag
  then filter (fun t => negb (t =? tag)) prev
  else prev ++ [tag].

(** [arr.filter((x, idx) => p(idx, x))] *)
Fixpoint filterFrom {A : Type} (p : nat -> A -> bool) (idx : nat) (arr : list A) : list A :=
  match arr with
  | [] => []
  | x :: rest =>
      if p idx x then x :: filterFrom p (S idx) rest else filterFrom p (S idx) rest
  end.

Definition filterIndexed {A : Type} (p : nat -> A -> bool) (arr : list A) : list A :=
  filterFrom p 0 arr.

(** [{ ...task, attachments: a }] *)
Definition taskWithAttachments (a : list TaskAttachment.t) (x : Task.t) : Task.t :=
  Task.mk (Task.id x) (Task.title x) (Task.description x) (Task.assigneeId x)
    (Task.status x) (Task.priority x) (Task.type x) (Task.tags x) (Task.dueDate x)
    (Task.createdAt x) (Task.completedAt x) (Task.notes x) (Some a)
    (Task.isEscalated x) (Task.inventoryFileId x) (Task.inventoryItemIds x).

(** [handleDeleteAttachment], with the task open in the detail modal. *)
Definition handleDeleteAttachment (selectedTask : option Task.t) (indexToRemove : nat)
  : list Command :=
  match selectedTask with
  | None => []
  | Some task =>
      match Task.attachments task with
      | None => []
      | Some attachments =>
          handleTaskUpdate
            (taskWithAttachments
               (filterIndexed (fun idx _ => negb (idx =? indexToRemove)%nat) attachments)
               task)
      end
  end.

(* ================================================================== *)
(** ** The rows of [DashboardTracker] *)

Module TrackerRow.

Definition priorityEqb (a b : TaskPriority.t) : bool :=
  match a, b with
  | TaskPriority.LOW, TaskPriority.LOW | TaskPriority.MEDIUM, TaskPriority.MEDIUM
  | TaskPriority.HIGH, TaskPriority.HIGH | TaskPriority.CRITICAL, TaskPriority.CRITICAL => true
  | _, _ => false
  end.

(** Composite status logic over [groupTasks.map(t => t.status)]. *)
Definition compositeStatus (statuses : list TaskStatus.t) : TaskStatus.t :=
  let some s := existsb (fun x => TaskStatus.eqb x s) statuses in
  if forallb (fun s => TaskStatus.eqb s TaskStatus.DONE) statuses then TaskStatus.DONE
  else if some TaskStatus.IN_PROGRESS || (some TaskStatus.DONE && some TaskStatus.TODO)
  then TaskStatus.IN_PROGRESS
  else if some TaskStatus.ON_HOLD then TaskStatus.ON_HOLD
  else TaskStatus.TODO.

(** Composite priority over [groupTasks.map(t => t.priority)]. *)
Definition compositePriority (priorities : list TaskPriority.t) : TaskPriority.t :=
  let has p := existsb (fun x => priorityEqb x p) priorities in
  if has TaskPriority.CRITICAL then TaskPriority.CRITICAL
  else if has TaskPriority.HIGH then TaskPriority.HIGH
  else if has TaskPriority.MEDIUM then TaskPriority.MEDIUM
  else TaskPriority.LOW.

(** [a.name + (a.url || '')] *)
Definition attachmentKey (a : TaskAttachment.t) : string :=
  TaskAttachment.name a ++ orElse (TaskAttachment.url a) "".

(** The loop over [allAtts]: the keys seen and the attachments kept. *)
Definition uniqueStep (acc : list string * list TaskAttachment.t) (a : TaskAttachment.t)
  : list string * list TaskAttachment.t :=
  let key := attachmentKey a in
  if includes (fst acc) key then acc
  else (fst acc ++ [key], snd acc ++ [a]).

Definition uniqueAtts (groupTasks : list Task.t) : list TaskAttachment.t :=
  let allAtts := flat_map (fun t => orEmpty (Task.attachments t)) groupTasks in
  snd (fold_left uniqueStep allAtts ([], [])).

(** The order the composite priority takes its maximum in. *)
Definition priorityRank (p : TaskPriority.t) : nat :=
  match p with
  | TaskPriority.LOW => 0
  | TaskPriority.MEDIUM => 1
  | TaskPriority.HIGH => 2
  | TaskPriority.CRITICAL => 3
  end.

(** The guard that opens the body of the grouping loop,
    [if (t.title.startsWith('Upload to Beam:')) return;].  A task it skips
    is in no row; a task it passes goes on to the grouping by studio name,
    which is not part of this model. *)
Definition skipped (t : Task.t) : bool :=
  String.prefix "Upload to Beam:" (Task.title t).

End TrackerRow.

(* ================================================================== *)
(** ** The counters of [DashboardView] *)

Record StatusCounts := mkStatusCounts {
  todo : nat;
  inProgress : nat;
  onHold : nat;
  done : nat
}.

Definition statusCounts (tasks : list Task.t) : StatusCounts :=
  let count s :=
    List.length (filter (fun t => TaskStatus.eqb (Task.status t) s) tasks) in
  mkStatusCounts (count TaskStatus.TODO) (count TaskStatus.IN_PROGRESS)
                 (count TaskStatus.ON_HOLD) (count TaskStatus.DONE).

(* ================================================================== *)
(** ** Inventory workflow ([InventoryManager])

    [InventoryItem.t] keeps the workflow fields of an item; the display
    fields an assignment sets beside them ([assigneeName] and the two
    assignment dates) are outside the record. *)

Module InventoryManager.

(** What the component sends to the store. *)
Inductive Request :=
| addTaskRequest (t : Task.t)                                      (* [onAddTask] *)
| updateInventoryItems (fileId : string) (items : list InventoryItem.t). (* [onUpdateItems] *)

Inductive AssignType := AUGMENTATION | QA.

(** [{ ...item, status: s }] *)
Definition itemWithStatus (s : InventoryStatus.t) (x : InventoryItem.t) : InventoryItem.t :=
  InventoryItem.mk (InventoryItem.id x) (InventoryItem.productId x)
    (InventoryItem.productName x) (InventoryItem.model x) (InventoryItem.mfr x)
    (InventoryItem.studio x) s (InventoryItem.assigneeId x).

(** [{ ...item, status: s, assigneeId: a, ... }] *)
Definition itemAssigned (s : InventoryStatus.t) (a : string) (x : InventoryItem.t)
  : InventoryItem.t :=
  InventoryItem.mk (InventoryItem.id x) (InventoryItem.productId x)
    (InventoryItem.productName x) (InventoryItem.model x) (InventoryItem.mfr x)
    (InventoryItem.studio x) s (Some a).

(** [handleAgentStatusUpdate]: the agent's Mark Augmented and Mark QA'd
    buttons, on the selected rows of the open file. *)
Definition handleAgentStatusUpdate (activeInventory : option InventoryFile.t)
    (selectedIds : list string) (newStatus : InventoryStatus.t) : list Request :=
  match activeInventory with
  | None => []
  | Some inv =>
      [updateInventoryItems (InventoryFile.id inv)
         (map (fun item => if includes selectedIds (InventoryItem.id item)
                           then itemWithStatus newStatus item else item)
              (InventoryFile.data inv))]
  end.

Definition assignedStatus (assignType : AssignType) : InventoryStatus.t :=
  match assignType with
  | AUGMENTATION => InventoryStatus.ASSIGNED_AUGMENTATION
  | QA => InventoryStatus.ASSIGNED_QA
  end.

Section Assign.
Variable toISOString : Z -> string.

(** [s.split('T')[0]] *)
Fixpoint beforeT (s : string) : string :=
  match s with
  | EmptyString => EmptyString
  | String c rest => if Ascii.eqb c "T" then EmptyString else String c (beforeT rest)
  end.

(** [handleAssignSubmit], with [handleAddTask] of [App] behind [onAddTask]. *)
Definition handleAssignSubmit (activeInventory : option InventoryFile.t)
    (currentUser : User.t) (selectedIds : list string) (assignType : AssignType)
    (selectedAssignee assignDueDate : string) (now : Z) : list Request :=
  match activeInventory with
  | None => []
  | Some inv =>
      let selectedCount := showZ (Z.of_nat (List.length selectedIds)) in
      let updatedItems :=
        map (fun item => if includes selectedIds (InventoryItem.id item)
                         then itemAssigned (assignedStatus assignType) selectedAssignee item
                         else item)
            (InventoryFile.data inv) in
      let newTask :=
        Task.mk (showZ now)
          ((match assignType with AUGMENTATION => "Augment" | QA => "QA Review" end)
           ++ " " ++ selectedCount ++ " products in " ++ InventoryFile.fileName inv)
          ("Automated task for processing " ++ selectedCount
           ++ " items from studio file: " ++ InventoryFile.fileName inv ++ ".")
          selectedAssignee TaskStatus.TODO TaskPriority.HIGH
          (match assignType with
           | AUGMENTATION => TaskType.AUGMENTING
           | QA => TaskType.QA
           end)
          None
          (orElse (Some assignDueDate) (beforeT (toISOString (now + 86400000))))
          now None
          (Some [TaskNote.mk ("note-" ++ showZ now) (User.id currentUser)
                             (User.name currentUser)
                             "Auto-generated from inventory workflow." now])
          None None
          (Some (InventoryFile.id inv)) (Some selectedIds) in
      [addTaskRequest newTask; updateInventoryItems (InventoryFile.id inv) updatedItems]
  end.
End Assign.

(** The inventory table after [update({ data }).eq('id', fileId)]. *)
Definition applyUpdateItems (fileId : string) (items : list InventoryItem.t)
    (inventories : list InventoryFile.t) : list InventoryFile.t :=
  map (fun f => if InventoryFile.id f =? fileId
                then InventoryFile.mk (InventoryFile.id f) (InventoryFile.fileName f)
                                      (InventoryFile.uploadDate f) (InventoryFile.rowCount f)
                                      items
                else f) inventories.

Definition applyRequest (r : Request) (inventories : list InventoryFile.t)
  : list InventoryFile.t :=
  match r with
  | addTaskRequest _ => inventories
  | updateInventoryItems fileId items => applyUpdateItems fileId items inventories
  end.

Definition applyRequests (rs : list Request) (inventories : list InventoryFile.t)
  : list InventoryFile.t :=
  fold_left (fun acc r => applyRequest r acc) rs inventories.

(** The tasks a list of requests creates. *)
Definition createdTasks (rs : list Request) : list Task.t :=
  flat_map (fun r => match r with addTaskRequest t => [t] | _ => [] end) rs.

(** The selection is a [Set] of ids, kept here in insertion order:
    [set.add(x)] and [set.delete(x)]. *)
Definition setAdd (x : string) (s : list string) : list string :=
  if includes s x then s else s ++ [x].

Definition setDelete (x : string) (s : list string) : list string :=
  filter (fun y => negb (y =? x)) s.

(** [arr.findIndex(p)], with [None] for -1. *)
Fixpoint findIndex {A : Type} (p : A -> bool) (arr : list A) : option nat :=
  match arr with
  | [] => None
  | x :: rest => if p x then Some 0%nat else option_map S (findIndex p rest)
  end.

(** [arr.slice(start, end_)] *)
Definition slice {A : Type} (start end_ : nat) (arr : list A) : list A :=
  firstn (end_ - start) (skipn start arr).

(** [toggleSelect]: the updater passed to [setSelectedIds], with the rows
    on screen and the row clicked before. *)
Definition toggleSelect (filteredData : list InventoryItem.t)
    (lastSelectedId : option string) (id : string) (shiftKey : bool)
    (prev : list string) : list string :=
  let isAdding := negb (includes prev id) in
  let single := if isAdding then setAdd id prev else setDelete id prev in
  if shiftKey && truthy lastSelectedId then
    match findIndex (fun i => InventoryItem.id i =? showOpt lastSelectedId) filteredData,
          findIndex (fun i => InventoryItem.id i =? id) filteredData with
    | Some lastIdx, Some currentIdx =>
        let start := Nat.min lastIdx currentIdx in
        let end_ := Nat.max lastIdx currentIdx in
        let rangeIds := map InventoryItem.id (slice start (end_ + 1) filteredData) in
        fold_left (fun newSelected rid =>
                     if isAdding then setAdd rid newSelected
                     else setDelete rid newSelected)
                  rangeIds prev
    | _, _ => single
    end
  else single.

Section Csv.

(** [String.prototype.trim] of the host. *)
Variable trim : string -> string.

Definition quote : ascii := ascii_of_nat 34.

Definition dropLeadingQuote (s : string) : string :=
  match s with
  | String c rest => if Ascii.eqb c quote then rest else s
  | EmptyString => s
  end.

Fixpoint dropTrailingQuote (s : string) : string :=
  match s with
  | EmptyString => EmptyString
  | String c EmptyString => if Ascii.eqb c quote then EmptyString else s
  | String c rest => String c (dropTrailingQuote rest)
  end.

(** The replace of [parseLine], which deletes a quote at the start and a
    quote at the end of what is left. *)
Definition stripQuotes (s : string) : string :=
  dropTrailingQuote (dropLeadingQuote s).

(** The loop of [parseLine] from position [i] on: [current] is
    [line.substring(start, i)] and [rest] what is left of the line; the
    result lists the substrings pushed. *)
Fixpoint fieldsFrom (inQuotes : bool) (current rest : string) : list string :=
  match rest with
  | EmptyString => [current]
  | String c rest' =>
      let inQuotes' := if Ascii.eqb c quote then negb inQuotes else inQuotes in
      if Ascii.eqb c "," && negb inQuotes'
      then current :: fieldsFrom inQuotes' EmptyString rest'
      else fieldsFrom inQuotes' (current ++ String c EmptyString) rest'
  end.

Definition parseLine (line : string) : list string :=
  map (fun field => trim (stripQuotes field)) (fieldsFrom false EmptyString line).

End Csv.

End InventoryManager.



(* ================================================================== *)
(** ** Completing an invoice ([InvoiceManager.handleMarkComplete]) *)

(** The invoice handed to [onUpdateInvoice], or [None] when the handler
    alerts and returns.  [finalFile] is [agentUploads[invoice.id]]. *)
Definition handleMarkComplete (invoice : Invoice.t)
    (finalFile : option InvoiceManager.Upload) (now : Z) : option Invoice.t :=
  match finalFile, Invoice.finalCsvFile invoice with
  | None, None => None
  | None, Some kept => Some (Invoice.with_completion now (Some kept) invoice)
  | Some file, _ =>
      match InvoiceManager.readResult file with
      | Some finalContent =>
          Some (Invoice.with_completion now
                  (Some (InvoiceFileMeta.mk (InvoiceManager.fileName file)
                                            (InvoiceManager.fileSize file)
                                            InvoiceFileType.csv (Some finalContent)))
                  invoice)
      | None => None
      end
  end.

(* ================================================================== *)
(** * Properties *)

Unset Implicit Arguments.

(** ** Boolean equalities decide equality *)

Lemma UserRole_eqb_eq a b : UserRole.eqb a b = true <-> a = b.
Proof. destruct a, b; simpl; split; congruence. Qed.

Lemma TaskStatus_eqb_eq a b : TaskStatus.eqb a b = true <-> a = b.
Proof. destruct a, b; simpl; split; congruence. Qed.

Lemma TaskType_eqb_eq a b : TaskType.eqb a b = true <-> a = b.
Proof. destruct a, b; simpl; split; congruence. Qed.

Lemma EscalationStatus_eqb_eq a b : EscalationStatus.eqb a b = true <-> a = b.
Proof. destruct a, b; simpl; split; congruence. Qed.

Lemma InventoryStatus_eqb_eq a b : InventoryStatus.eqb a b = true <-> a = b.
Proof. destruct a, b; simpl; split; congruence. Qed.

Lemma InvoiceStatus_eqb_eq a b : InvoiceStatus.eqb a b = true <-> a = b.
Proof. destruct a, b; simpl; split; congruence. Qed.

Lemma TaskStatus_eqb_refl a : TaskStatus.eqb a a = true.
Proof. now apply TaskStatus_eqb_eq. Qed.

Lemma EscalationStatus_eqb_refl a : EscalationStatus.eqb a a = true.
Proof. now apply EscalationStatus_eqb_eq. Qed.

Lemma InvoiceStatus_eqb_refl a : InvoiceStatus.eqb a a = true.
Proof. now apply InvoiceStatus_eqb_eq. Qed.

Lemma TaskStatus_eqb_neq a b : TaskStatus.eqb a b = false <-> a <> b.
Proof.
  rewrite <- TaskStatus_eqb_eq. destruct (TaskStatus.eqb a b); split; congruence.
Qed.

Lemma EscalationStatus_eqb_neq a b : EscalationStatus.eqb a b = false <-> a <> b.
Proof.
  rewrite <- EscalationStatus_eqb_eq.
  destruct (EscalationStatus.eqb a b); split; congruence.
Qed.

Lemma InvoiceStatus_eqb_neq a b : InvoiceStatus.eqb a b = false <-> a <> b.
Proof.
  rewrite <- InvoiceStatus_eqb_eq.
  destruct (InvoiceStatus.eqb a b); split; congruence.
Qed.

(** ** Rule 1: automated completion *)

Lemma hasActiveEscalation_iff escalations task :
  hasActiveEscalation escalations task = true
  <-> activeEscalationOn escalations (Task.id task).
Proof.
  unfold hasActiveEscalation, activeEscalationOn. rewrite existsb_exists.
  split; intros [e [Hin H]]; exists e; split; trivial.
  - apply andb_true_iff in H as [Hid Hst].
    apply String.eqb_eq in Hid. apply negb_true_iff in Hst.
    apply EscalationStatus_eqb_neq in Hst. now split.
  - destruct H as [Hid Hst]. apply andb_true_iff. split.
    + now apply String.eqb_eq.
    + apply negb_true_iff. now apply EscalationStatus_eqb_neq.
Qed.

Lemma itemComplete_iff type item :
  itemComplete type item = true <-> completionPredicate type item.
Proof.
  unfold itemComplete, completionPredicate.
  destruct type; simpl;
    rewrite ?orb_true_iff, ?InventoryStatus_eqb_eq; tauto.
Qed.

Lemma every_itemComplete_iff type items :
  forallb (itemComplete type) items = true
  <-> Forall (completionPredicate type) items.
Proof.
  rewrite forallb_forall, Forall_forall.
  split; intros H x Hx; apply itemComplete_iff; auto.
Qed.

Lemma length_eqb_0 {A : Type} (l : list A) :
  (List.length l =? 0)%nat = true <-> l = [].
Proof. destruct l; simpl; split; congruence. Qed.

(** Every command of the per-task body is the completion of that task, and
    is issued only under the four conditions. *)
Lemma autoCompleteTask_sound inventories escalations now task c :
  In c (autoCompleteTask inventories escalations now task) ->
  c = updateTask (markDone now task)
  /\ autoCompleteCondition inventories escalations task.
Proof.
  unfold autoCompleteTask.
  destruct (TaskStatus.eqb (Task.status task) TaskStatus.DONE); [intros []|].
  destruct (negb (truthy (Task.inventoryFileId task)) || _); [intros []|].
  destruct (hasActiveEscalation escalations task) eqn:Hesc; [intros []|].
  destruct (findInventory inventories (Task.inventoryFileId task)) as [file|] eqn:Hfile;
    [|intros []].
  cbv zeta.
  destruct (List.length (relevantItems file (Task.inventoryItemIds task)) =? 0)%nat eqn:Hlen;
    [intros []|].
  destruct (forallb _ _) eqn:Hall; [|intros []].
  intros [<-|[]]. split; trivial.
  exists file. repeat split; trivial.
  - intros Hnil. apply length_eqb_0 in Hnil. congruence.
  - intros Hact. apply hasActiveEscalation_iff in Hact. congruence.
  - now apply every_itemComplete_iff.
Qed.

(** Under the preconditions of Rule 1 and its four conditions the body
    issues the completion. *)
Lemma autoCompleteTask_complete inventories escalations now task :
  Task.status task <> TaskStatus.DONE ->
  truthy (Task.inventoryFileId task) = true ->
  (exists ids, Task.inventoryItemIds task = Some ids /\ ids <> []) ->
  autoCompleteCondition inventories escalations task ->
  autoCompleteTask inventories escalations now task = [updateTask (markDone now task)].
Proof.
  intros Hst Hfid [ids [Hids Hne]] [file [Hfile [Hrel [Hesc Hall]]]].
  unfold autoCompleteTask.
  apply TaskStatus_eqb_neq in Hst. rewrite Hst, Hfid, Hids.
  destruct ids as [|i ids]; [congruence|]. simpl.
  destruct (hasActiveEscalation escalations task) eqn:Ha.
  { apply hasActiveEscalation_iff in Ha. contradiction. }
  rewrite <- Hids, Hfile. cbv zeta.
  destruct (List.length _ =? 0)%nat eqn:Hlen.
  { apply length_eqb_0 in Hlen. contradiction. }
  apply every_itemComplete_iff in Hall. now rewrite Hall.
Qed.

Lemma autoCompleteTask_none inventories escalations now task :
  ~ autoCompleteCondition inventories escalations task ->
  autoCompleteTask inventories escalations now task = [].
Proof.
  intros Hn.
  destruct (autoCompleteTask inventories escalations now task) as [|c cs] eqn:E; trivial.
  exfalso. apply Hn.
  apply (autoCompleteTask_sound inventories escalations now task c).
  rewrite E. now left.
Qed.

(** The conditions of Rule 1 read only the id, the type and the inventory
    links of the task. *)
Lemma autoCompleteCondition_ext inventories escalations T1 T2 :
  Task.id T1 = Task.id T2 ->
  Task.type T1 = Task.type T2 ->
  Task.inventoryFileId T1 = Task.inventoryFileId T2 ->
  Task.inventoryItemIds T1 = Task.inventoryItemIds T2 ->
  autoCompleteCondition inventories escalations T1 ->
  autoCompleteCondition inventories escalations T2.
Proof.
  unfold autoCompleteCondition. intros -> -> -> ->. trivial.
Qed.

Lemma markDone_inj_condition inventories escalations now T1 T2 :
  markDone now T1 = markDone now T2 ->
  autoCompleteCondition inventories escalations T1 ->
  autoCompleteCondition inventories escalations T2.
Proof.
  intros E. apply autoCompleteCondition_ext.
  - exact (f_equal Task.id E).
  - exact (f_equal Task.type E).
  - exact (f_equal Task.inventoryFileId E).
  - exact (f_equal Task.inventoryItemIds E).
Qed.

(** With a task and an inventory at hand the effect is the per-task body
    run over every task. *)
Lemma autoCompleteEffect_in tasks inventories escalations now c :
  In c (autoCompleteEffect tasks inventories escalations now) <->
  inventories <> []
  /\ exists task, In task tasks
                  /\ In c (autoCompleteTask inventories escalations now task).
Proof.
  unfold autoCompleteEffect.
  destruct tasks as [|t ts]; simpl.
  { split; [intros []|]. intros [_ [x [[] _]]]. }
  destruct inventories as [|i invs]; simpl.
  { split; [intros []|]. intros [H _]. congruence. }
  change (In c (flat_map (autoCompleteTask (i :: invs) escalations now) (t :: ts))
          <-> (i :: invs <> [] /\ exists task, In task (t :: ts)
                 /\ In c (autoCompleteTask (i :: invs) escalations now task))).
  rewrite in_flat_map. split.
  - intros H. split; [congruence | exact H].
  - intros [_ H]. exact H.
Qed.

Lemma uniqueKeys_In_eq {A : Type} (key : A -> string) rows x y :
  uniqueKeys key rows -> In x rows -> In y rows -> key x = key y -> x = y.
Proof.
  unfold uniqueKeys. induction rows as [|r rows IH]; simpl; [intros _ []|].
  intros Hnd Hx Hy E. inversion Hnd as [|? ? Hnotin Hnd']; subst.
  destruct Hx as [->|Hx], Hy as [->|Hy]; trivial.
  - exfalso. apply Hnotin. rewrite E. now apply in_map.
  - exfalso. apply Hnotin. rewrite <- E. now apply in_map.
  - now apply IH.
Qed.

(** What [find] on a key returns, without [find]. *)
Lemma find_firstUnder {A : Type} (key : A -> string) k (rows : list A) x :
  find (fun r => key r =? k) rows = Some x <-> firstUnder key k rows x.
Proof.
  unfold firstUnder. induction rows as [|r rows IH]; simpl.
  - split; [discriminate|]. intros [before [after [E _]]]. now destruct before.
  - destruct (key r =? k) eqn:Er.
    + apply String.eqb_eq in Er. split.
      * intros [= <-]. exists [], rows. repeat split; trivial. intros r' [].
      * intros [[|b before] [after [E [Hk Hbefore]]]].
        -- now injection E as <- _.
        -- injection E as <- _. exfalso. apply (Hbefore r); [now left | trivial].
    + apply String.eqb_neq in Er. rewrite IH. split.
      * intros [before [after [-> [Hk Hbefore]]]].
        exists (r :: before), after. repeat split; trivial.
        intros r' [<-|Hin]; [trivial | now apply Hbefore].
      * intros [[|b before] [after [E [Hk Hbefore]]]].
        -- injection E as <- _. contradiction.
        -- injection E as <- ->. exists before, after. repeat split; trivial.
           intros r' Hin. apply Hbefore. now right.
Qed.

Lemma find_noneUnder {A : Type} (key : A -> string) k (rows : list A) :
  find (fun r => key r =? k) rows = None <-> noneUnder key k rows.
Proof.
  unfold noneUnder. induction rows as [|r rows IH]; simpl.
  - split; trivial. now intros _ r [].
  - destruct (key r =? k) eqn:Er.
    + apply String.eqb_eq in Er. split; [discriminate|].
      intros H. exfalso. apply (H r); [now left | trivial].
    + apply String.eqb_neq in Er. rewrite IH. split.
      * intros H r' [<-|Hin]; [trivial | now apply H].
      * intros H r' Hin. apply H. now right.
Qed.

Lemma relevantItems_In file ids item :
  In item (relevantItems file (Some ids))
  <-> In item (InventoryFile.data file) /\ In (InventoryItem.id item) ids.
Proof.
  unfold relevantItems. rewrite filter_In. unfold includes. rewrite existsb_exists.
  split; intros [Hin H]; split; trivial.
  - destruct H as [y [Hy E]]. apply String.eqb_eq in E. now subst.
  - exists (InventoryItem.id item). split; trivial. apply String.eqb_refl.
Qed.

Lemma relevantItems_none file : relevantItems file None = [].
Proof.
  unfold relevantItems. induction (InventoryFile.data file); simpl; trivial.
Qed.

(** The lookups of the pass compute the conditions of Rule 1. *)
Lemma autoCompleteCondition_iff_rule1 inventories escalations T :
  autoCompleteCondition inventories escalations T
  <-> rule1Condition inventories escalations T.
Proof.
  unfold autoCompleteCondition, rule1Condition. split.
  - intros [file [Hfile [Hne [Hact Hall]]]].
    destruct (Task.inventoryFileId T) as [fileId|]; unfold findInventory in Hfile.
    2:{ apply find_some in Hfile as [_ H]. discriminate. }
    destruct (Task.inventoryItemIds T) as [ids|].
    2:{ now rewrite relevantItems_none in Hne. }
    exists fileId, ids, file. split; trivial. split; trivial.
    split; [now apply find_firstUnder|]. split; [|split; trivial].
    + destruct (relevantItems file (Some ids)) as [|item rest] eqn:E; [congruence|].
      exists item. apply relevantItems_In. rewrite E. now left.
    + intros item Hin Hid. rewrite Forall_forall in Hall. apply Hall.
      apply relevantItems_In. now split.
  - intros [fileId [ids [file [-> [-> [Hfile [[item Hitem] [Hact Hall]]]]]]]].
    exists file. split; [now apply (find_firstUnder InventoryFile.id)|].
    split; [|split; trivial].
    + intros E. apply relevantItems_In in Hitem. rewrite E in Hitem. destruct Hitem.
    + apply Forall_forall. intros x Hx. apply relevantItems_In in Hx as [H1 H2].
      now apply Hall.
Qed.

(** C1. For a task that is not DONE and carries a non-empty inventory file
    id and a non-empty list of item ids, one automation pass issues its
    completion (status DONE, completedAt the current time) if and only if
    the inventory file resolves, the gathered items are not empty, no
    non-CLOSED escalation references the task and every gathered item
    satisfies the completion predicate; otherwise the pass issues nothing
    for the task. *)
Theorem C1_auto_complete_iff tasks inventories escalations now T :
  In T tasks ->
  Task.status T <> TaskStatus.DONE ->
  truthy (Task.inventoryFileId T) = true ->
  (exists ids, Task.inventoryItemIds T = Some ids /\ ids <> []) ->
  (In (updateTask (markDone now T)) (autoCompleteEffect tasks inventories escalations now)
   <-> rule1Condition inventories escalations T)
  /\ Task.status (markDone now T) = TaskStatus.DONE
  /\ Task.completedAt (markDone now T) = Some now
  /\ (~ rule1Condition inventories escalations T ->
      autoCompleteTask inventories escalations now T = []
      /\ (uniqueKeys Task.id tasks ->
          forall c, In c (autoCompleteEffect tasks inventories escalations now) ->
                    commandTaskId c <> Some (Task.id T))).
Proof.
  intros Hin Hst Hfid Hids.
  rewrite <- (autoCompleteCondition_iff_rule1 inventories escalations T).
  split; [split | split; [reflexivity | split; [reflexivity |]]].
  - intros Hc. apply autoCompleteEffect_in in Hc as [_ [T' [_ Hc]]].
    apply autoCompleteTask_sound in Hc as [E Hcond].
    assert (E' : markDone now T' = markDone now T).
    { set (a := markDone now T') in *. set (b := markDone now T) in *.
      congruence. }
    exact (markDone_inj_condition _ _ _ _ _ E' Hcond).
  - intros Hcond. apply autoCompleteEffect_in. split.
    + destruct Hcond as [file [Hfile _]]. intros ->. discriminate.
    + exists T. split; trivial.
      rewrite (autoCompleteTask_complete _ _ now T Hst Hfid Hids Hcond). now left.
  - intros Hn. split; [now apply autoCompleteTask_none|].
    intros Huniq c Hc Hid.
    apply autoCompleteEffect_in in Hc as [_ [T' [Hin' Hc]]].
    apply autoCompleteTask_sound in Hc as [-> Hcond].
    simpl in Hid. injection Hid as Hid.
    assert (T' = T) as -> by (apply (uniqueKeys_In_eq Task.id tasks); trivial).
    contradiction.
Qed.

(** Scenario A: the file [f1] resolves, both rows of the task are
    QA-complete and nothing is escalated, so the pass completes [t1]. *)
Lemma C1_auto_complete_witness :
  In (updateTask (markDone 5000 Scenario.t1))
     (autoCompleteEffect [Scenario.t1] [Scenario.f1] [] 5000).
Proof.
  refine (proj2 (proj1 (C1_auto_complete_iff [Scenario.t1] [Scenario.f1] [] 5000
                          Scenario.t1 _ _ _ _)) _).
  - left. reflexivity.
  - discriminate.
  - reflexivity.
  - exists ["i1"; "i2"]. split; [reflexivity | discriminate].
  - exists "f1", ["i1"; "i2"], Scenario.f1.
    split; [reflexivity|]. split; [reflexivity|]. split; [|split; [|split]].
    + exists [], []. split; [reflexivity|]. split; [reflexivity|]. intros r [].
    + exists (Scenario.item "i1" InventoryStatus.QA_COMPLETE).
      split; left; reflexivity.
    + intros [e [[] _]].
    + intros item [<-|[<-|[]]] _; reflexivity.
Defined.

Example scenario_A_completes :
  autoCompleteEffect [Scenario.t1] [Scenario.f1] [] 5000
  = [updateTask (markDone 5000 Scenario.t1)].
Proof. reflexivity. Qed.

Example scenario_B_blocked :
  autoCompleteEffect [Scenario.t1] [Scenario.f1] [Scenario.e1] 5000 = [].
Proof. reflexivity. Qed.

(** ** Closing an escalation and the escalated flag *)

(** Whenever the linked task is found, closing writes the flag [false],
    whatever else references the task. *)
Lemma handleCloseEscalation_clears_flag tasks esc now task :
  findTask tasks (Escalation.taskId esc) = Some task ->
  handleCloseEscalation tasks esc now
  = [saveEscalation (Escalation.with_status EscalationStatus.CLOSED now esc);
     updateTask (Task.with_isEscalated false task)].
Proof. unfold handleCloseEscalation. now intros ->. Qed.

(** C2, on the code.  Two non-CLOSED escalations reference task t1, whose
    flag is set.  After the agent closes the first one the store holds t1
    with the flag cleared although the second escalation is still pending:
    the flag no longer agrees with the escalations. *)
Theorem C2_close_clears_flag_despite_other_escalation :
  let s := mkCollections [Scenario.manager; Scenario.agent] [Scenario.t1escalated] []
                         [] [Scenario.e1answered; Scenario.e2] in
  let closed := Escalation.with_status EscalationStatus.CLOSED 3000 Scenario.e1answered in
  let t1' := Task.with_isEscalated false Scenario.t1escalated in
  let s' := applyCommands (handleCloseEscalation (tasks s) Scenario.e1answered 3000) s in
  escalatedFlagConsistent s Scenario.t1escalated
  /\ EscalationModal.resolveClose Scenario.agent (tasks s) Scenario.e1answered 3000
     = Some [saveEscalation closed; updateTask t1']
  /\ tasks s' = [t1']
  /\ escalations s' = [closed; Scenario.e2]
  /\ activeEscalationOn (escalations s') (Task.id t1')
  /\ ~ escalatedFlagConsistent s' t1'.
Proof.
  cbv zeta.
  assert (Hact : forall rest,
             activeEscalationOn (rest ++ [Scenario.e2]) "t1").
  { intros rest. exists Scenario.e2. split; [apply in_or_app; right; now left|].
    split; [reflexivity | discriminate]. }
  split; [|split; [reflexivity | split; [reflexivity | split; [reflexivity | split]]]].
  - split; [intros _; exact (Hact [Scenario.e1answered]) | reflexivity].
  - exact (Hact [Escalation.with_status EscalationStatus.CLOSED 3000 Scenario.e1answered]).
  - intros [_ H].
    specialize (H (Hact [Escalation.with_status EscalationStatus.CLOSED 3000
                                                Scenario.e1answered])).
    discriminate H.
Qed.

(** ** Direct status changes by users *)

(** The [Mark Complete] button is guarded as the specification asks. *)
Lemma markComplete_guarded currentUser escalations selectedTask now cmds :
  TaskBoard.act currentUser escalations selectedTask now TaskBoard.MarkComplete = Some cmds ->
  Task.type selectedTask <> TaskType.AUGMENTING
  /\ Task.type selectedTask <> TaskType.QA
  /\ ~ activeEscalationOn escalations (Task.id selectedTask).
Proof.
  unfold TaskBoard.act.
  destruct (TaskBoard.markCompleteShown currentUser escalations selectedTask) eqn:E;
    [|discriminate].
  intros _. unfold TaskBoard.markCompleteShown in E.
  repeat (apply andb_true_iff in E as [E ?]).
  repeat split.
  - intros Ht. unfold TaskBoard.isAutomatedTask in *. rewrite Ht in *. discriminate.
  - intros Ht. unfold TaskBoard.isAutomatedTask in *. rewrite Ht in *. discriminate.
  - intros [e [Hin [Hid Hst]]].
    match goal with
    | H : negb (TaskBoard.hasActiveEscalations _ _) = true |- _ =>
        apply negb_true_iff in H; apply Nat.ltb_ge in H;
        unfold TaskBoard.activeEscalations, TaskBoard.currentTaskEscalations in H
    end.
    assert (Hin' : In e (filter (fun e0 => negb (EscalationStatus.eqb (Escalation.status e0)
                                                   EscalationStatus.CLOSED))
                            (filter (fun e0 => Escalation.taskId e0 =? Task.id selectedTask)
                                    escalations))).
    { apply filter_In. split.
      - apply filter_In. split; trivial. now apply String.eqb_eq.
      - apply negb_true_iff. now apply EscalationStatus_eqb_neq. }
    destruct (filter _ (filter _ escalations)); [destruct Hin' | simpl in *; lia].
Qed.

(** The status select hands DONE to the update handler for every task its
    viewer may edit and that is not DONE yet, whatever its type and its
    escalations. *)
Lemma statusSelect_unguarded currentUser escalations selectedTask now :
  TaskBoard.canEditTask currentUser selectedTask = true ->
  Task.status selectedTask <> TaskStatus.DONE ->
  TaskBoard.act currentUser escalations selectedTask now
                (TaskBoard.SelectStatus TaskStatus.DONE)
  = Some [updateTask (Task.with_status TaskStatus.DONE selectedTask)].
Proof.
  intros Hedit Hst. unfold TaskBoard.act, TaskBoard.statusSelectDisabled.
  apply TaskStatus_eqb_neq in Hst. now rewrite Hedit, Hst.
Qed.

(** C5, on the code.  The status select of the task detail and the status
    select of the tracker hand the chosen value to the update handler
    without the guard of the button: an augmentation task is set to DONE by
    its assignee or by a manager, and a task with a pending escalation is
    set to DONE as well. *)
Theorem C5_status_select_sets_done_unguarded :
  let done2 := Task.with_status TaskStatus.DONE Scenario.t2 in
  let t3 := Scenario.task "t1" TaskType.CHECK_404 TaskStatus.IN_PROGRESS "u2" None None in
  Task.type Scenario.t2 = TaskType.AUGMENTING
  /\ TaskBoard.act Scenario.agent [] Scenario.t2 4000 (TaskBoard.SelectStatus TaskStatus.DONE)
     = Some [updateTask done2]
  /\ TaskBoard.act Scenario.manager [] Scenario.t2 4000 (TaskBoard.SelectStatus TaskStatus.DONE)
     = Some [updateTask done2]
  /\ DashboardTracker.handleStatusChange [Scenario.t2] TaskStatus.DONE = [updateTask done2]
  /\ Task.status done2 = TaskStatus.DONE
  /\ activeEscalationOn [Scenario.e1] (Task.id t3)
  /\ TaskBoard.act Scenario.agent [Scenario.e1] t3 4000 TaskBoard.MarkComplete = None
  /\ TaskBoard.act Scenario.agent [Scenario.e1] t3 4000 (TaskBoard.SelectStatus TaskStatus.DONE)
     = Some [updateTask (Task.with_status TaskStatus.DONE t3)].
Proof.
  cbv zeta. repeat (split; [reflexivity|]).
  split; [|split; reflexivity].
  exists Scenario.e1. split; [now left|]. split; [reflexivity | discriminate].
Qed.

(** ** Who may close an escalation *)



Example scenario_E_no_close_control :
  EscalationModal.resolveClose Scenario.agent [Scenario.t1escalated] Scenario.e2 3000 = None.
Proof. reflexivity. Qed.

(** ** Cold start *)

(** C6. While the change detector is in its first-load state (so on the
    baseline cycle in particular) a cycle emits no notification and no
    alert, whatever the collections and whoever the viewer; the cycle in
    which tasks or invoices arrive becomes the baseline. *)
Theorem C6_baseline_cycle_is_silent
    prevT prevI prevE webhook currentUser (c : Collections) now :
  outputs (cycle (mkRefs prevT prevI prevE true) webhook currentUser c now) = []
  /\ (tasks c <> [] \/ invoices c <> [] ->
      refsAfter (cycle (mkRefs prevT prevI prevE true) webhook currentUser c now)
      = mkRefs (tasks c) (invoices c) (escalations c) false).
Proof.
  unfold cycle, notificationEffect. simpl.
  destruct (tasks c) as [|t ts], (invoices c) as [|i invs]; simpl; split; trivial.
  intros [H|H]; congruence.
Qed.

(** ** Invoice updates: the manager-review task *)

Lemma findManager_none users :
  (forall u, In u users -> User.role u <> UserRole.MANAGER) ->
  findManager users = None.
Proof.
  intros H. unfold findManager.
  destruct (find _ users) as [m|] eqn:E; trivial.
  apply find_some in E as [Hin Hrole]. apply UserRole_eqb_eq in Hrole.
  now apply H in Hin.
Qed.


Lemma syncCompanionTask_no_addTask tasks updatedInvoice :
  filter isAddTask (syncCompanionTask tasks updatedInvoice) = [].
Proof. unfold syncCompanionTask. now destruct (findTask _ _). Qed.


Lemma confirmManagerTask_completed tasks now updatedInvoice :
  Invoice.status updatedInvoice = InvoiceStatus.COMPLETED ->
  confirmManagerTask tasks now updatedInvoice = [].
Proof. unfold confirmManagerTask. now intros ->. Qed.

(** *** One update *)

Lemma crossesCompletedEdge_iff oldInvoice updatedInvoice :
  crossesCompletedEdge oldInvoice updatedInvoice = true <->
  (forall o, oldInvoice = Some o -> Invoice.status o <> InvoiceStatus.COMPLETED)
  /\ Invoice.status updatedInvoice = InvoiceStatus.COMPLETED.
Proof.
  unfold crossesCompletedEdge. rewrite andb_true_iff, InvoiceStatus_eqb_eq.
  destruct oldInvoice as [o|].
  - rewrite negb_true_iff, InvoiceStatus_eqb_neq. split.
    + intros [H1 H2]. split; trivial. now intros o' [= <-].
    + intros [H1 H2]. split; trivial. now apply H1.
  - split; intros [_ H]; split; trivial. discriminate.
Qed.

(** C10. When an update crosses the COMPLETED edge and no user has the
    MANAGER role, the handler still saves the invoice and syncs the
    companion task (the first task under the id task-<invoice id>, if there
    is one: it takes the invoice's assignee and due date where the invoice
    has them and becomes DONE, every other field kept), and that is all it
    does: no task is created and nothing fails. *)
Theorem C10_no_manager_skips_review_task
    toISOString invoices tasks users now updatedInvoice :
  (forall u, In u users -> User.role u <> UserRole.MANAGER) ->
  (forall o, firstUnder Invoice.id (Invoice.id updatedInvoice) invoices o ->
             Invoice.status o <> InvoiceStatus.COMPLETED) ->
  Invoice.status updatedInvoice = InvoiceStatus.COMPLETED ->
  (noneUnder Task.id ("task-" ++ Invoice.id updatedInvoice) tasks ->
   handleUpdateInvoice toISOString invoices tasks users now updatedInvoice
   = [saveInvoice updatedInvoice])
  /\ (forall linkedTask,
        firstUnder Task.id ("task-" ++ Invoice.id updatedInvoice) tasks linkedTask ->
        handleUpdateInvoice toISOString invoices tasks users now updatedInvoice
        = [saveInvoice updatedInvoice;
           updateTask
             (Task.mk (Task.id linkedTask) (Task.title linkedTask)
                (Task.description linkedTask)
                (match Invoice.assigneeId updatedInvoice with
                 | Some (String c a) => String c a
                 | _ => Task.assigneeId linkedTask
                 end)
                TaskStatus.DONE (Task.priority linkedTask) (Task.type linkedTask)
                (Task.tags linkedTask)
                (match Invoice.dueDate updatedInvoice with
                 | Some (String c d) => String c d
                 | _ => Task.dueDate linkedTask
                 end)
                (Task.createdAt linkedTask) (Task.completedAt linkedTask)
                (Task.notes linkedTask) (Task.attachments linkedTask)
                (Task.isEscalated linkedTask) (Task.inventoryFileId linkedTask)
                (Task.inventoryItemIds linkedTask))])
  /\ filter isAddTask
       (handleUpdateInvoice toISOString invoices tasks users now updatedInvoice) = [].
Proof.
  intros Hnone Hold Hst.
  assert (Hedge : crossesCompletedEdge
                    (find (fun i => Invoice.id i =? Invoice.id updatedInvoice) invoices)
                    updatedInvoice = true).
  { apply crossesCompletedEdge_iff. split; trivial.
    intros o Ho. apply Hold. now apply find_firstUnder. }
  assert (E : handleUpdateInvoice toISOString invoices tasks users now updatedInvoice
              = saveInvoice updatedInvoice :: syncCompanionTask tasks updatedInvoice).
  { unfold handleUpdateInvoice, createManagerTask.
    rewrite Hedge, (findManager_none users Hnone), (confirmManagerTask_completed _ _ _ Hst).
    simpl. now rewrite app_nil_r. }
  assert (HorElse : forall a b, orElse a b = match a with
                                             | Some (String c v) => String c v
                                             | _ => b
                                             end).
  { intros [[|c v]|] b; reflexivity. }
  split; [|split].
  - intros Habsent. rewrite E. unfold syncCompanionTask, findTask, companionTaskId.
    apply (find_noneUnder Task.id) in Habsent. now rewrite Habsent.
  - intros linkedTask Hfirst. rewrite E.
    unfold syncCompanionTask, findTask, companionTaskId.
    apply (find_firstUnder Task.id) in Hfirst. rewrite Hfirst, Hst.
    cbn [InvoiceStatus.eqb orb]. unfold Task.with_sync. now rewrite !HorElse.
  - rewrite E. simpl. apply syncCompanionTask_no_addTask.
Qed.

(** Scenario C without a manager among the users: the companion task of
    [inv1] is synced to DONE and no review task is created. *)
Lemma C10_no_manager_witness :
  handleUpdateInvoice Scenario.iso [Scenario.inv1]
    [Scenario.t2;
     Scenario.task "task-inv1" TaskType.INVOICE_PROCESSING TaskStatus.IN_PROGRESS
                   "u3" None None]
    [Scenario.agent; Scenario.otherAgent] 2000 Scenario.inv1completed
  = [saveInvoice Scenario.inv1completed;
     updateTask (Task.mk "task-inv1" "Task task-inv1" "" "u2" TaskStatus.DONE
                   TaskPriority.MEDIUM TaskType.INVOICE_PROCESSING None "2026-01-31"
                   1000 None None None None None None)].
Proof.
  refine (proj1 (proj2 (C10_no_manager_skips_review_task Scenario.iso [Scenario.inv1]
                          [Scenario.t2;
                           Scenario.task "task-inv1" TaskType.INVOICE_PROCESSING
                                         TaskStatus.IN_PROGRESS "u3" None None]
                          [Scenario.agent; Scenario.otherAgent] 2000
                          Scenario.inv1completed _ _ _))
                (Scenario.task "task-inv1" TaskType.INVOICE_PROCESSING
                               TaskStatus.IN_PROGRESS "u3" None None) _).
  - intros u [<-|[<-|[]]]; discriminate.
  - intros o [[|b before] [after [E [_ _]]]].
    + injection E as <- _. discriminate.
    + injection E as _ E. now destruct before.
  - reflexivity.
  - exists [Scenario.t2], []. split; [reflexivity|]. split; [reflexivity|].
    intros r [<-|[]]. discriminate.
Defined.






(** *** The store's tables *)

Section TableFacts.
Variable A : Type.
Variable key : A -> string.




End TableFacts.

Lemma applyCommands_app cs1 cs2 s :
  applyCommands (cs1 ++ cs2) s = applyCommands cs2 (applyCommands cs1 s).
Proof. unfold applyCommands. apply fold_left_app. Qed.


Lemma applyCommands_keeps_users cs s : users (applyCommands cs s) = users s.
Proof.
  revert s. induction cs as [|c cs IH]; intros s; simpl; trivial.
  unfold applyCommands in *. simpl. rewrite IH. now destruct c.
Qed.


(** *** A session of user actions *)




Lemma lookup_key {A : Type} (key : A -> string) k rows r :
  lookup key k rows = Some r -> key r = k.
Proof.
  unfold lookup. intros H. apply find_some in H as [_ H]. now apply String.eqb_eq.
Qed.




(** Scenario C: the agent submits the final file, the manager confirms the
    upload; one review task is created, for the manager. *)
Example scenario_C_one_review_task :
  let s := mkCollections [Scenario.manager; Scenario.agent] [] [] [Scenario.inv1] [] in
  let upload := InvoiceManager.mkUpload "jan-final.csv" "0.01 MB" (Some "a,b") in
  let cmds :=
    InvoiceLife.run Scenario.iso s
      [InvoiceLife.UserAction Scenario.agent "2026-01-05" 2000 "inv1"
                              (InvoiceManager.SubmitComplete upload);
       InvoiceLife.UserAction Scenario.agent "2026-01-05" 2100 "inv1"
                              (InvoiceManager.SubmitComplete upload);
       InvoiceLife.UserAction Scenario.manager "2026-01-06" 3000 "inv1"
                              InvoiceManager.ConfirmUpload] in
  InvoiceLife.managerTasksCreated "inv1" cmds = 1
  /\ map Task.assigneeId
         (flat_map (fun c => match c with addTask t => [t] | _ => [] end) cmds)
     = ["u1"].
Proof. split; reflexivity. Qed.

(** ** Escalation notifications *)

Lemma detectEscalation_created webhook currentUser prevEscalations newEsc :
  lookup Escalation.id (Escalation.id newEsc) prevEscalations = None ->
  managerOrAgent currentUser newEsc = true ->
  detectEscalation webhook currentUser prevEscalations newEsc
  = addNotification "Escalation Raised" (escalationRaisedMessage newEsc) true
    :: (if UserRole.eqb (User.role currentUser) UserRole.MANAGER
        then [] else sendToSlack webhook (escalationRaisedMessage newEsc)).
Proof.
  unfold detectEscalation, lookup. intros -> ->. cbv zeta.
  now destruct (UserRole.eqb _ _).
Qed.

(** What one collection contributes is part of what the effect emits. *)
Lemma notificationEffect_escalation prevT prevI prevE webhook currentUser users
      tasks invoices escalations newEsc o :
  In newEsc escalations ->
  In o (detectEscalation webhook currentUser prevE newEsc) ->
  In o (snd (notificationEffect (mkRefs prevT prevI prevE false) webhook
                                (Some currentUser) users tasks invoices escalations)).
Proof.
  intros Hin Ho. unfold notificationEffect. simpl.
  apply in_or_app. right. apply in_or_app. right.
  apply in_flat_map. now exists newEsc.
Qed.

(** C8, on the code.  An agent raised an escalation and a webhook is
    configured in the Manager viewer's browser.  The Manager's session emits
    the escalation-raised notification and forwards nothing to the alert
    channel: the forward is guarded by the role of the viewer, not of the
    raiser. *)
Theorem C8_manager_session_forwards_no_alert :
  let webhook := Some "https://hooks.slack.com/services/T0/B0/x" in
  let emitted :=
    snd (notificationEffect (mkRefs [Scenario.t1] [] [] false) webhook
                            (Some Scenario.manager)
                            [Scenario.manager; Scenario.agent]
                            [Scenario.t1escalated] [] [Scenario.e1]) in
  User.role Scenario.manager = UserRole.MANAGER
  /\ User.role Scenario.agent = UserRole.AGENT
  /\ Escalation.agentId Scenario.e1 = User.id Scenario.agent
  /\ lookup Escalation.id (Escalation.id Scenario.e1) [] = None
  /\ emitted
     = [addNotification "Escalation Raised" (escalationRaisedMessage Scenario.e1) true]
  /\ filter isSlackPost emitted = [].
Proof. cbv zeta. repeat split. Qed.

(** The sibling path: a completed invoice is announced to the alert channel
    from the Manager's session. *)
Example invoice_completed_manager_session_alerts :
  filter isSlackPost
    (snd (notificationEffect (mkRefs [] [Scenario.inv1] [] false)
            (Some "https://hooks.slack.com/services/T0/B0/x") (Some Scenario.manager)
            [Scenario.manager; Scenario.agent] [] [Scenario.inv1completed] []))
  = [slackPost "https://hooks.slack.com/services/T0/B0/x"
       ("âœ… Invoice Completed: " ++ dq ++ "Studio A - Jan Invoice" ++ dq
        ++ " by Amir. Ready for upload.")].
Proof. reflexivity. Qed.

(** Outside the baseline, when an escalation absent from the previous
    snapshot appears, a viewer who is a Manager or the escalation's agent
    receives the escalation-raised notification.  The alert is forwarded
    from the session of a viewer who is not a Manager, when a webhook is
    configured there; the session of a Manager viewer forwards nothing for
    it.  Raising the escalation writes the task with its flag set. *)
Lemma escalationCreated_outputs
    prevT prevI prevE webhook currentUser users tasks invoices escalations newEsc :
  In newEsc escalations ->
  lookup Escalation.id (Escalation.id newEsc) prevE = None ->
  managerOrAgent currentUser newEsc = true ->
  let emitted := snd (notificationEffect (mkRefs prevT prevI prevE false) webhook
                        (Some currentUser) users tasks invoices escalations) in
  let msg := escalationRaisedMessage newEsc in
  In (addNotification "Escalation Raised" msg true) emitted
  /\ (User.role currentUser <> UserRole.MANAGER ->
      forall url, webhook = Some url -> url <> "" -> In (slackPost url msg) emitted)
  /\ (User.role currentUser = UserRole.MANAGER ->
      detectEscalation webhook currentUser prevE newEsc
      = [addNotification "Escalation Raised" msg true])
  /\ (forall task reason link now,
        exists esc,
          handleEscalateTask (Some currentUser) task reason link now
          = [saveEscalation esc; updateTask (Task.with_isEscalated true task)]
          /\ Escalation.taskId esc = Task.id task
          /\ Escalation.agentId esc = User.id currentUser
          /\ Escalation.status esc = EscalationStatus.PENDING
          /\ Task.isEscalated (Task.with_isEscalated true task) = Some true).
Proof.
  intros Hin Hnew Haud. cbv zeta.
  pose proof (detectEscalation_created webhook currentUser prevE newEsc Hnew Haud) as E.
  split; [|split; [|split]].
  - apply (notificationEffect_escalation _ _ _ _ _ _ _ _ _ newEsc); trivial.
    rewrite E. now left.
  - intros Hrole url -> Hurl.
    apply (notificationEffect_escalation _ _ _ _ _ _ _ _ _ newEsc); trivial.
    rewrite E. right.
    destruct (UserRole.eqb (User.role currentUser) UserRole.MANAGER) eqn:R.
    { apply UserRole_eqb_eq in R. contradiction. }
    unfold sendToSlack. apply String.eqb_neq in Hurl. rewrite Hurl. now left.
  - intros Hrole. rewrite E. apply UserRole_eqb_eq in Hrole. now rewrite Hrole.
  - intros task reason link now. eexists. split; [reflexivity|]. repeat split.
Qed.

(** Scenario D seen from the raising agent's session, with a webhook. *)
Example scenario_D_agent_session :
  snd (notificationEffect (mkRefs [Scenario.t1] [] [] false)
         (Some "https://hooks.slack.com/services/T0/B0/x") (Some Scenario.agent)
         [Scenario.manager; Scenario.agent] [Scenario.t1escalated] [] [Scenario.e1])
  = [addNotification "Escalation Raised" (escalationRaisedMessage Scenario.e1) true;
     slackPost "https://hooks.slack.com/services/T0/B0/x"
               (escalationRaisedMessage Scenario.e1)].
Proof. reflexivity. Qed.

(** C9 as stated fails: the manager answers a pending escalation, so the
    history grows by one message whose author is not the agent, and the
    status changes with it; the agent's session emits the status update
    and no new-message notification. *)
Lemma C9_reply_with_status_change_is_an_update :
  exists newEsc lastMsg,
    replied Scenario.manager Scenario.e2 "Use model L-2" 2500 = [newEsc]
    /\ List.length (Escalation.history Scenario.e2)
       < List.length (Escalation.history newEsc)
    /\ lastMessage newEsc = Some lastMsg
    /\ EscalationMessage.authorId lastMsg <> User.id Scenario.agent
    /\ managerOrAgent Scenario.agent newEsc = true
    /\ detectEscalation None Scenario.agent [Scenario.e2] newEsc
       = [addNotification "Escalation Update"
            ("Escalation for " ++ dq ++ "Task t1" ++ dq ++ " is RESPONDED.") true].
Proof.
  do 2 eexists. split; [reflexivity|]. split; [simpl; lia|].
  split; [reflexivity|]. split; [discriminate|]. split; reflexivity.
Qed.

Lemma lastMessage_some esc n :
  n < List.length (Escalation.history esc) -> exists m, lastMessage esc = Some m.
Proof.
  unfold lastMessage. intros H.
  destruct (nth_error (Escalation.history esc) (List.length (Escalation.history esc) - 1))
    as [m|] eqn:E; [now exists m|].
  apply nth_error_None in E. lia.
Qed.

(** C9, amended.  For an escalation known to the previous snapshot whose
    status is unchanged and whose history has grown, the new-message
    notification is emitted exactly when the author of the last message is
    not the viewer.  When the status changed as well, a viewer who is a
    Manager or the escalation's agent gets the status update instead, and no
    new-message notification. *)
Theorem C9_new_message webhook currentUser prevE oldEsc newEsc :
  lookup Escalation.id (Escalation.id newEsc) prevE = Some oldEsc ->
  List.length (Escalation.history oldEsc) < List.length (Escalation.history newEsc) ->
  managerOrAgent currentUser newEsc = true ->
  let newMessage :=
    addNotification "New Message"
      ("New reply in escalation for " ++ dq ++ Escalation.taskTitle newEsc ++ dq ++ ".")
      true in
  exists lastMsg,
    lastMessage newEsc = Some lastMsg
    /\ (Escalation.status oldEsc = Escalation.status newEsc ->
        (In newMessage (detectEscalation webhook currentUser prevE newEsc)
         <-> EscalationMessage.authorId lastMsg <> User.id currentUser)
        /\ (EscalationMessage.authorId lastMsg <> User.id currentUser ->
            detectEscalation webhook currentUser prevE newEsc = [newMessage])
        /\ (EscalationMessage.authorId lastMsg = User.id currentUser ->
            detectEscalation webhook currentUser prevE newEsc = []))
    /\ (Escalation.status oldEsc <> Escalation.status newEsc ->
        detectEscalation webhook currentUser prevE newEsc
        = [addNotification "Escalation Update"
             ("Escalation for " ++ dq ++ Escalation.taskTitle newEsc ++ dq ++ " is "
              ++ EscalationStatus.value (Escalation.status newEsc) ++ ".") true]).
Proof.
  intros Hold Hgrow Haud. cbv zeta.
  destruct (lastMessage_some newEsc _ Hgrow) as [lastMsg Hlast].
  exists lastMsg. split; trivial.
  unfold detectEscalation. unfold lookup in Hold. rewrite Hold, Hlast, Haud.
  apply Nat.ltb_lt in Hgrow. rewrite Hgrow.
  split.
  - intros Hst. rewrite Hst, EscalationStatus_eqb_refl. cbn [negb].
    destruct (EscalationMessage.authorId lastMsg =? User.id currentUser) eqn:Ea; cbn [negb].
    + apply String.eqb_eq in Ea. split; [|split]; trivial.
      * split; [intros [] | contradiction].
      * contradiction.
    + apply String.eqb_neq in Ea. split; [|split]; trivial.
      * split; [trivial | intros _; now left].
      * contradiction.
  - intros Hst. apply EscalationStatus_eqb_neq in Hst. now rewrite Hst.
Qed.

(** An agent adds a message to a pending escalation: the manager's session
    announces it. *)
Lemma C9_new_message_witness :
  exists lastMsg,
    lastMessage (Escalation.with_reply
                   (Escalation.history Scenario.e2
                    ++ [Scenario.message "m4" Scenario.agent "Any news?" 2600])
                   EscalationStatus.PENDING 2600 Scenario.e2) = Some lastMsg.
Proof.
  pose (newEsc := Escalation.with_reply
                    (Escalation.history Scenario.e2
                     ++ [Scenario.message "m4" Scenario.agent "Any news?" 2600])
                    EscalationStatus.PENDING 2600 Scenario.e2).
  destruct (C9_new_message None Scenario.manager [Scenario.e2] Scenario.e2 newEsc
              eq_refl (le_n 2) eq_refl) as [lastMsg [H _]].
  exists lastMsg. exact H.
Defined.

(** ** Idempotence *)

(** *** The change detector on an unchanged snapshot *)

Lemma lookup_self {A : Type} (key : A -> string) rows x :
  uniqueKeys key rows -> In x rows -> lookup key (key x) rows = Some x.
Proof.
  unfold uniqueKeys, lookup. induction rows as [|r rows IH]; simpl; [intros _ []|].
  intros Hnd Hin. inversion Hnd as [|? ? Hnotin Hnd']; subst.
  destruct Hin as [->|Hin].
  - now rewrite String.eqb_refl.
  - destruct (key r =? key x) eqn:E.
    + apply String.eqb_eq in E. exfalso. apply Hnotin. rewrite E. now apply in_map.
    + now apply IH.
Qed.

Lemma flat_map_nil {A B : Type} (f : A -> list B) l :
  (forall x, In x l -> f x = []) -> flat_map f l = [].
Proof.
  induction l as [|a l IH]; simpl; trivial.
  intros H. rewrite (H a (or_introl eq_refl)), IH; trivial.
  intros x Hx. apply H. now right.
Qed.

Lemma detectTask_unchanged currentUser users tasks :
  uniqueKeys Task.id tasks ->
  flat_map (detectTask currentUser users tasks) tasks = [].
Proof.
  intros Hu. apply flat_map_nil. intros t Ht.
  unfold detectTask. pose proof (lookup_self Task.id tasks t Hu Ht) as E.
  unfold lookup in E. rewrite E. now rewrite TaskStatus_eqb_refl.
Qed.

Lemma detectInvoice_unchanged webhook currentUser invoices :
  uniqueKeys Invoice.id invoices ->
  flat_map (detectInvoice webhook currentUser invoices) invoices = [].
Proof.
  intros Hu. apply flat_map_nil. intros i Hi.
  unfold detectInvoice. pose proof (lookup_self Invoice.id invoices i Hu Hi) as E.
  unfold lookup in E. rewrite E. rewrite InvoiceStatus_eqb_refl.
  now destruct (InvoiceStatus.eqb (Invoice.status i) InvoiceStatus.COMPLETED).
Qed.

Lemma detectEscalation_unchanged webhook currentUser escalations :
  uniqueKeys Escalation.id escalations ->
  flat_map (detectEscalation webhook currentUser escalations) escalations = [].
Proof.
  intros Hu. apply flat_map_nil. intros e He.
  unfold detectEscalation. pose proof (lookup_self Escalation.id escalations e Hu He) as E.
  unfold lookup in E. rewrite E. rewrite EscalationStatus_eqb_refl, Nat.ltb_irrefl.
  reflexivity.
Qed.

Lemma notificationEffect_unchanged refs webhook currentUser users tasks invoices escalations :
  uniqueKeys Task.id tasks ->
  uniqueKeys Invoice.id invoices ->
  uniqueKeys Escalation.id escalations ->
  snd (notificationEffect
         (fst (notificationEffect refs webhook currentUser users tasks invoices escalations))
         webhook currentUser users tasks invoices escalations) = [].
Proof.
  intros Ht Hi He.
  assert (Hsame : forall cu,
             snd (notificationEffect (mkRefs tasks invoices escalations false) webhook
                                     cu users tasks invoices escalations) = []).
  { intros [cu|]; unfold notificationEffect; simpl; trivial.
    now rewrite detectTask_unchanged, detectInvoice_unchanged, detectEscalation_unchanged. }
  destruct refs as [pt pi pe fl]. destruct fl.
  - destruct ((0 <? List.length tasks)%nat || (0 <? List.length invoices)%nat) eqn:G.
    + assert (E : fst (notificationEffect (mkRefs pt pi pe true) webhook currentUser
                                          users tasks invoices escalations)
                  = mkRefs tasks invoices escalations false)
        by (unfold notificationEffect; simpl; now rewrite G).
      rewrite E. apply Hsame.
    + assert (E : fst (notificationEffect (mkRefs pt pi pe true) webhook currentUser
                                          users tasks invoices escalations)
                  = mkRefs pt pi pe true)
        by (unfold notificationEffect; simpl; now rewrite G).
      rewrite E. unfold notificationEffect. simpl. now rewrite G.
  - destruct currentUser as [cu|].
    + assert (E : fst (notificationEffect (mkRefs pt pi pe false) webhook (Some cu)
                                          users tasks invoices escalations)
                  = mkRefs tasks invoices escalations false) by reflexivity.
      rewrite E. apply Hsame.
    + reflexivity.
Qed.

(** *** The automation pass on the collections its writes produce *)

Lemma autoCompleteTask_cases inventories escalations now task :
  autoCompleteTask inventories escalations now task = []
  \/ autoCompleteTask inventories escalations now task = [updateTask (markDone now task)].
Proof.
  unfold autoCompleteTask.
  destruct (TaskStatus.eqb _ _); [now left|].
  destruct (negb _ || _); [now left|].
  destruct (hasActiveEscalation _ _); [now left|].
  destruct (findInventory _ _); [|now left]. cbv zeta.
  destruct (List.length _ =? 0)%nat; [now left|].
  destruct (forallb _ _); [now right | now left].
Qed.

(** Whether the body fires does not depend on the time reading. *)
Lemma autoCompleteTask_nil_any_time inventories escalations now1 now2 task :
  autoCompleteTask inventories escalations now1 task = [] ->
  autoCompleteTask inventories escalations now2 task = [].
Proof.
  unfold autoCompleteTask.
  destruct (TaskStatus.eqb _ _); trivial.
  destruct (negb _ || _); trivial.
  destruct (hasActiveEscalation _ _); trivial.
  destruct (findInventory _ _); trivial. cbv zeta.
  destruct (List.length _ =? 0)%nat; trivial.
  destruct (forallb _ _); trivial. discriminate.
Qed.

Lemma autoCompleteTask_done inventories escalations now now' task :
  autoCompleteTask inventories escalations now' (markDone now task) = [].
Proof. reflexivity. Qed.

Lemma autoCompleteTask_settled inventories escalations now1 now2 task :
  autoCompleteTask inventories escalations now2
                   (settleTask inventories escalations now1 task) = [].
Proof.
  unfold settleTask.
  destruct (autoCompleteTask inventories escalations now1 task) eqn:E.
  - now apply (autoCompleteTask_nil_any_time _ _ now1).
  - apply autoCompleteTask_done.
Qed.

Lemma settleTask_id inventories escalations now task :
  Task.id (settleTask inventories escalations now task) = Task.id task.
Proof. unfold settleTask. now destruct (autoCompleteTask _ _ _ _). Qed.

Section UpsertInPlace.
Variable A : Type.
Variable key : A -> string.

Lemma map_replace_absent (x : A) rows :
  (forall r, In r rows -> key r <> key x) ->
  map (fun r => if key r =? key x then x else r) rows = rows.
Proof.
  induction rows as [|r rows IH]; simpl; trivial.
  intros H. rewrite IH by (intros; apply H; now right).
  assert (key r <> key x) as E by (apply H; now left).
  apply String.eqb_neq in E. now rewrite E.
Qed.

(** Under unique keys an upsert replaces the one row of its key where it
    stands. *)
Lemma upsert_in_place (x x' : A) rows1 rows2 :
  key x' = key x ->
  (forall r, In r rows1 -> key r <> key x) ->
  (forall r, In r rows2 -> key r <> key x) ->
  upsert key x' (rows1 ++ x :: rows2) = rows1 ++ x' :: rows2.
Proof.
  intros Hk H1 H2. unfold upsert, hasKey.
  rewrite existsb_app. simpl. rewrite Hk, String.eqb_refl, orb_true_r. simpl.
  rewrite map_app. simpl. rewrite String.eqb_refl.
  rewrite <- Hk in H1, H2.
  rewrite <- Hk.
  now rewrite (map_replace_absent x' rows1 H1), (map_replace_absent x' rows2 H2).
Qed.
End UpsertInPlace.

Lemma applyCommands_keeps_inventories cs s :
  inventories (applyCommands cs s) = inventories s.
Proof.
  revert s. induction cs as [|c cs IH]; intros s; simpl; trivial.
  unfold applyCommands in *. simpl. rewrite IH. now destruct c.
Qed.

Lemma applyCommands_keeps_escalations cs s :
  forallb (fun c => negb (writesEscalations c)) cs = true ->
  escalations (applyCommands cs s) = escalations s.
Proof.
  revert s. induction cs as [|c cs IH]; intros s; simpl; trivial.
  intros H. apply andb_true_iff in H as [Hc Hcs].
  unfold applyCommands in *. simpl. rewrite (IH _ Hcs).
  destruct c; simpl in *; trivial; discriminate.
Qed.

(** Applying the commands of the per-task bodies turns each task, where it
    stands, into its settled form. *)
Lemma settle_fold inventories escalations now :
  forall rest done s,
    NoDup (map Task.id (done ++ rest)) ->
    tasks s = map (settleTask inventories escalations now) done ++ rest ->
    tasks (applyCommands (flat_map (autoCompleteTask inventories escalations now) rest) s)
    = map (settleTask inventories escalations now) (done ++ rest).
Proof.
  induction rest as [|t rest IH]; intros done s Hnd Hs.
  { unfold applyCommands. simpl. rewrite Hs. now rewrite !app_nil_r. }
  cbn [flat_map]. rewrite applyCommands_app.
  replace (done ++ t :: rest) with ((done ++ [t]) ++ rest) in *
    by (now rewrite <- app_assoc).
  apply IH; trivial.
  rewrite map_app. cbn [map]. rewrite <- app_assoc. cbn [app].
  unfold settleTask at 2.
  destruct (autoCompleteTask_cases inventories escalations now t) as [E|E]; rewrite E.
  { exact Hs. }
  unfold applyCommands. cbn [fold_left applyCommand tasks]. rewrite Hs.
  rewrite <- app_assoc in Hnd. cbn [app] in Hnd. rewrite map_app in Hnd. cbn [map] in Hnd.
  apply NoDup_remove_2 in Hnd.
  apply upsert_in_place; trivial.
  - intros r Hr Hk. apply in_map_iff in Hr as [r0 [<- Hr0]].
    rewrite settleTask_id in Hk. apply Hnd.
    apply in_or_app. left. rewrite <- Hk. now apply in_map.
  - intros r Hr Hk. apply Hnd.
    apply in_or_app. right. rewrite <- Hk. now apply in_map.
Qed.

Lemma autoCompleteEffect_only_updates tasks inventories escalations now :
  forallb (fun c => negb (writesEscalations c))
          (autoCompleteEffect tasks inventories escalations now) = true.
Proof.
  apply forallb_forall. intros c Hc.
  apply autoCompleteEffect_in in Hc as [_ [t [_ Hc]]].
  now apply autoCompleteTask_sound in Hc as [-> _].
Qed.

(** Once its writes are in the store the pass issues nothing. *)
Lemma autoCompleteEffect_settled (c : Collections) now1 now2 :
  uniqueKeys Task.id (tasks c) ->
  let c' := applyCommands
              (autoCompleteEffect (tasks c) (inventories c) (escalations c) now1) c in
  autoCompleteEffect (tasks c') (inventories c') (escalations c') now2 = [].
Proof.
  intros Hu. cbv zeta.
  rewrite applyCommands_keeps_inventories.
  rewrite (applyCommands_keeps_escalations _ _ (autoCompleteEffect_only_updates _ _ _ _)).
  remember (autoCompleteEffect (tasks c) (inventories c) (escalations c) now1)
    as cmds eqn:Hc.
  unfold autoCompleteEffect in Hc.
  destruct ((List.length (tasks c) =? 0)%nat || (List.length (inventories c) =? 0)%nat)
    eqn:G; subst cmds.
  { change (applyCommands [] c) with c. unfold autoCompleteEffect. now rewrite G. }
  rewrite (settle_fold _ _ now1 (tasks c) [] c Hu eq_refl). simpl app.
  unfold autoCompleteEffect. clear G.
  destruct (_ || _); trivial.
  apply flat_map_nil. intros x Hx. apply in_map_iff in Hx as [t [<- _]].
  apply autoCompleteTask_settled.
Qed.

Lemma autoCompleteTask_same_targets inventories escalations now1 now2 task :
  map commandTaskId (autoCompleteTask inventories escalations now1 task)
  = map commandTaskId (autoCompleteTask inventories escalations now2 task).
Proof.
  unfold autoCompleteTask.
  destruct (TaskStatus.eqb _ _); trivial.
  destruct (negb _ || _); trivial.
  destruct (hasActiveEscalation _ _); trivial.
  destruct (findInventory _ _); trivial. cbv zeta.
  destruct (List.length _ =? 0)%nat; trivial.
  now destruct (forallb _ _).
Qed.

Lemma autoCompleteEffect_same_targets tasks inventories escalations now1 now2 :
  map commandTaskId (autoCompleteEffect tasks inventories escalations now1)
  = map commandTaskId (autoCompleteEffect tasks inventories escalations now2).
Proof.
  unfold autoCompleteEffect. destruct (_ || _); trivial.
  induction tasks as [|t ts IH]; simpl; trivial.
  rewrite !map_app, IH. f_equal. apply autoCompleteTask_same_targets.
Qed.

(** C7 as stated fails: the collections of Scenario A, delivered twice,
    make the automation rule issue the completion of t1 twice. *)
Lemma C7_second_cycle_repeats_the_write :
  let c := mkCollections [Scenario.manager; Scenario.agent] [Scenario.t1]
                         [Scenario.f1] [] [] in
  let r1 := cycle initialRefs None (Some Scenario.manager) c 5000 in
  let r2 := cycle (refsAfter r1) None (Some Scenario.manager) c 6000 in
  commands r1 = [updateTask (markDone 5000 Scenario.t1)]
  /\ commands r2 = [updateTask (markDone 6000 Scenario.t1)]
  /\ outputs r2 = [].
Proof. repeat split. Qed.

(** C7, amended.  On collections with unique ids, a second cycle on the
    collections of the previous cycle emits no notification and no alert,
    and its automation pass writes the same tasks as the previous one did
    (the pass reads the collections only).  Once the writes of a pass are
    in the collections, the next pass issues no command. *)
Theorem C7_idempotence refs webhook currentUser (c : Collections) now1 now2 :
  uniqueKeys Task.id (tasks c) ->
  uniqueKeys Invoice.id (invoices c) ->
  uniqueKeys Escalation.id (escalations c) ->
  let r1 := cycle refs webhook currentUser c now1 in
  outputs (cycle (refsAfter r1) webhook currentUser c now2) = []
  /\ map commandTaskId (commands (cycle (refsAfter r1) webhook currentUser c now2))
     = map commandTaskId (commands r1)
  /\ commands (cycle (refsAfter r1) webhook currentUser
                     (applyCommands (commands r1) c) now2) = [].
Proof.
  intros Ht Hi He. cbv zeta. unfold cycle. cbn [outputs commands refsAfter].
  split; [|split].
  - now apply notificationEffect_unchanged.
  - apply autoCompleteEffect_same_targets.
  - exact (autoCompleteEffect_settled c now1 now2 Ht).
Qed.

(** Scenario A, delivered twice and then once more with t1 written. *)
Lemma C7_idempotence_witness :
  let c := mkCollections [Scenario.manager; Scenario.agent] [Scenario.t1]
                         [Scenario.f1] [] [] in
  let r1 := cycle initialRefs None (Some Scenario.manager) c 5000 in
  outputs (cycle (refsAfter r1) None (Some Scenario.manager) c 6000) = []
  /\ map commandTaskId (commands (cycle (refsAfter r1) None (Some Scenario.manager) c 6000))
     = map commandTaskId (commands r1)
  /\ commands (cycle (refsAfter r1) None (Some Scenario.manager)
                     (applyCommands (commands r1) c) 6000) = [].
Proof.
  refine (C7_idempotence initialRefs None (Some Scenario.manager)
            (mkCollections [Scenario.manager; Scenario.agent] [Scenario.t1]
                           [Scenario.f1] [] [])
            5000 6000 _ _ _).
  - repeat constructor. simpl. tauto.
  - constructor.
  - constructor.
Defined.

(* ================================================================== *)
(** * Further properties of the code *)

(** ** Invoices and their derived tasks *)

Section DeleteFacts.
Variable A : Type.
Variable key : A -> string.

Lemma lookup_delete k k' (rows : list A) :
  lookup key k (delete key k' rows) = if k' =? k then None else lookup key k rows.
Proof.
  unfold lookup, delete. induction rows as [|r rows IH]; simpl.
  { now destruct (k' =? k). }
  destruct (key r =? k') eqn:E1; simpl.
  - rewrite IH. apply String.eqb_eq in E1. subst k'.
    now destruct (key r =? k).
  - rewrite IH. destruct (key r =? k) eqn:E2; trivial.
    apply String.eqb_eq in E2. subst k.
    rewrite String.eqb_sym in E1. now rewrite E1.
Qed.


Lemma delete_absent k (rows : list A) :
  hasKey key k rows = false -> delete key k rows = rows.
Proof.
  unfold hasKey, delete. induction rows as [|r rows IH]; simpl; trivial.
  intros H. apply orb_false_iff in H as [H1 H2]. rewrite H1. simpl. now rewrite IH.
Qed.

Lemma hasKey_delete k k' (rows : list A) :
  hasKey key k rows = false -> hasKey key k (delete key k' rows) = false.
Proof.
  unfold hasKey, delete. induction rows as [|r rows IH]; simpl; trivial.
  intros H. apply orb_false_iff in H as [H1 H2].
  destruct (negb (key r =? k')); simpl; auto.
  rewrite H1. simpl. auto.
Qed.

End DeleteFacts.

Lemma companion_is_not_manager_id id : companionTaskId id <> managerTaskId id.
Proof.
  unfold companionTaskId, managerTaskId. simpl. intros H.
  injection H as H. apply (f_equal String.length) in H. simpl in H. lia.
Qed.

(** The store after [handleDeleteInvoice], the handler reading the tasks
    from [stateTasks]: a task is deleted when [stateTasks] holds one under
    its id. *)
Lemma handleDeleteInvoice_store stateTasks s id :
  tasks (applyCommands (handleDeleteInvoice stateTasks id) s)
  = (if isSome (findTask stateTasks (managerTaskId id))
     then delete Task.id (managerTaskId id) else fun rows => rows)
      ((if isSome (findTask stateTasks (companionTaskId id))
        then delete Task.id (companionTaskId id) else fun rows => rows)
         (tasks s))
  /\ invoices (applyCommands (handleDeleteInvoice stateTasks id) s)
     = delete Invoice.id id (invoices s).
Proof.
  unfold handleDeleteInvoice.
  destruct (findTask stateTasks (companionTaskId id)) as [t1|] eqn:E1;
    destruct (findTask stateTasks (managerTaskId id)) as [t2|] eqn:E2;
    unfold applyCommands; simpl;
    try (rewrite (lookup_key Task.id _ _ _ E1));
    try (rewrite (lookup_key Task.id _ _ _ E2)); split; trivial.
Qed.

(** Rule 6.  [handleDeleteInvoice] looks the two derived tasks up in the
    task list the component holds, which may lag behind the store.  After
    its commands the store has no invoice under the id; the companion task
    and the manager-review task are gone from the store exactly when the
    component's list has a task under their id or the store had none, and a
    derived task the store holds but the component's list lacks survives.
    So with the component's list equal to the store's, all three are gone.
    Every other invoice and task keeps its row. *)
Theorem handleDeleteInvoice_cascade stateTasks s id :
  let s' := applyCommands (handleDeleteInvoice stateTasks id) s in
  lookup Invoice.id id (invoices s') = None
  /\ (forall k : string, k = ("task-" ++ id)%string \/ k = ("task-mgr-" ++ id)%string ->
                lookup Task.id k (tasks s')
                = if isSome (lookup Task.id k stateTasks) then None
                  else lookup Task.id k (tasks s))
  /\ (stateTasks = tasks s ->
      lookup Task.id ("task-" ++ id) (tasks s') = None
      /\ lookup Task.id ("task-mgr-" ++ id) (tasks s') = None)
  /\ (forall k, (id =? k) = false -> lookup Invoice.id k (invoices s')
                                  = lookup Invoice.id k (invoices s))
  /\ (forall k : string,
        (("task-" ++ id)%string =? k) = false ->
        (("task-mgr-" ++ id)%string =? k) = false ->
                lookup Task.id k (tasks s') = lookup Task.id k (tasks s)).
Proof.
  cbv zeta. destruct (handleDeleteInvoice_store stateTasks s id) as [-> ->].
  change ("task-" ++ id)%string with (companionTaskId id).
  change ("task-mgr-" ++ id)%string with (managerTaskId id).
  unfold findTask. fold (lookup Task.id (companionTaskId id) stateTasks).
  fold (lookup Task.id (managerTaskId id) stateTasks).
  assert (Hne : (managerTaskId id =? companionTaskId id) = false).
  { apply String.eqb_neq. intros E. now apply (companion_is_not_manager_id id). }
  assert (Hne' : (companionTaskId id =? managerTaskId id) = false).
  { apply String.eqb_neq. apply companion_is_not_manager_id. }
  assert (Hboth : forall k, k = companionTaskId id \/ k = managerTaskId id ->
            lookup Task.id k
              ((if isSome (lookup Task.id (managerTaskId id) stateTasks)
                then delete Task.id (managerTaskId id) else fun rows => rows)
                 ((if isSome (lookup Task.id (companionTaskId id) stateTasks)
                   then delete Task.id (companionTaskId id) else fun rows => rows)
                    (tasks s)))
            = if isSome (lookup Task.id k stateTasks) then None
              else lookup Task.id k (tasks s)).
  { intros k [-> | ->];
      destruct (isSome (lookup Task.id (managerTaskId id) stateTasks));
      destruct (isSome (lookup Task.id (companionTaskId id) stateTasks));
      rewrite ?lookup_delete, ?String.eqb_refl, ?Hne, ?Hne'; reflexivity. }
  split; [|split; [exact Hboth | split; [|split]]].
  - now rewrite lookup_delete, String.eqb_refl.
  - intros ->. split.
    + rewrite (Hboth _ (or_introl eq_refl)).
      now destruct (lookup Task.id (companionTaskId id) (tasks s)).
    + rewrite (Hboth _ (or_intror eq_refl)).
      now destruct (lookup Task.id (managerTaskId id) (tasks s)).
  - intros k H. now rewrite lookup_delete, H.
  - intros k H1 H2.
    destruct (isSome (lookup Task.id (managerTaskId id) stateTasks));
      destruct (isSome (lookup Task.id (companionTaskId id) stateTasks));
      now rewrite ?lookup_delete, ?H1, ?H2.
Qed.

(** A manager-review task created in another session, which the deleting
    session has not received yet, outlives its invoice. *)
Example handleDeleteInvoice_stale_state :
  lookup Task.id "task-mgr-inv1"
    (tasks (applyCommands
              (handleDeleteInvoice [] "inv1")
              (mkCollections [Scenario.manager] 
                 [managerTask Scenario.iso 2000 Scenario.manager Scenario.inv1completed]
                 [] [Scenario.inv1completed] [])))
  = Some (managerTask Scenario.iso 2000 Scenario.manager Scenario.inv1completed).
Proof. reflexivity. Qed.






(** Rules 3 and 5.  [handleUpdateInvoice] writes no task other than the two
    the invoice owns, and once the invoice is COMPLETED or UPLOADED every
    task it updates is written as DONE; an UPLOADED update creates none. *)
Theorem handleUpdateInvoice_touches_owned_tasks
    toISOString invoices tasks users now updatedInvoice :
  (forall c, In c (handleUpdateInvoice toISOString invoices tasks users now updatedInvoice) ->
             commandTaskId c = None
             \/ commandTaskId c = Some (companionTaskId (Invoice.id updatedInvoice))
             \/ commandTaskId c = Some (managerTaskId (Invoice.id updatedInvoice)))
  /\ (InvoiceManager.isFinalized updatedInvoice = true ->
      forall t, In (updateTask t)
                   (handleUpdateInvoice toISOString invoices tasks users now updatedInvoice) ->
                Task.status t = TaskStatus.DONE)
  /\ (Invoice.status updatedInvoice = InvoiceStatus.UPLOADED ->
      filter isAddTask
        (handleUpdateInvoice toISOString invoices tasks users now updatedInvoice) = []
      /\ forall mgrTask,
           findTask tasks (managerTaskId (Invoice.id updatedInvoice)) = Some mgrTask ->
           In (updateTask (markDone now mgrTask))
              (handleUpdateInvoice toISOString invoices tasks users now updatedInvoice)).
Proof.
  unfold handleUpdateInvoice, syncCompanionTask, createManagerTask, confirmManagerTask.
  split; [|split].
  - intros c Hc. apply in_app_or in Hc as [[<-|[]]|Hc]; [now left|].
    apply in_app_or in Hc as [Hc|Hc].
    { destruct (findTask tasks (companionTaskId _)) as [lt|] eqn:E; [|destruct Hc].
      destruct Hc as [<-|[]]. right. left. simpl.
      now rewrite (lookup_key Task.id _ _ _ E). }
    apply in_app_or in Hc as [Hc|Hc].
    { destruct (crossesCompletedEdge _ _); [|destruct Hc].
      destruct (findManager users); [|destruct Hc].
      destruct Hc as [<-|[]]. right. right. reflexivity. }
    destruct (InvoiceStatus.eqb _ _); [|destruct Hc].
    destruct (findTask tasks (managerTaskId _)) as [mt|] eqn:E; [|destruct Hc].
    destruct Hc as [<-|[]]. right. right. simpl.
    now rewrite (lookup_key Task.id _ _ _ E).
  - intros Hfin t Ht. unfold InvoiceManager.isFinalized in Hfin.
    apply in_app_or in Ht as [[Ht|[]]|Ht]; [discriminate|].
    apply in_app_or in Ht as [Ht|Ht].
    { destruct (findTask tasks (companionTaskId _)); [|destruct Ht].
      destruct Ht as [[= <-]|[]]. simpl. now rewrite Hfin. }
    apply in_app_or in Ht as [Ht|Ht].
    { destruct (crossesCompletedEdge _ _); [|destruct Ht].
      destruct (findManager users); [|destruct Ht].
      destruct Ht as [Ht|[]]. discriminate. }
    clear Hfin.
    destruct (InvoiceStatus.eqb _ _); [|destruct Ht].
    destruct (findTask tasks (managerTaskId _)); [|destruct Ht].
    destruct Ht as [[= <-]|[]]. reflexivity.
  - intros Hst. unfold crossesCompletedEdge. rewrite Hst. cbn [InvoiceStatus.eqb].
    rewrite andb_false_r. split.
    + rewrite !filter_app. simpl.
      destruct (findTask tasks (companionTaskId _)); simpl;
        destruct (findTask tasks (managerTaskId _)); reflexivity.
    + intros mgrTask ->. apply in_or_app. right. apply in_or_app. right.
      simpl. now left.
Qed.

(** ** Replies and what the sessions hear of them *)





(** ** What a cycle can emit at most *)

Lemma filter_length_flat_map {A B : Type} (p : B -> bool) (f : A -> list B) l :
  (forall x, List.length (filter p (f x)) <= 1) ->
  List.length (filter p (flat_map f l)) <= List.length l.
Proof.
  intros H. induction l as [|a l IH]; simpl; trivial.
  rewrite filter_app, length_app. specialize (H a). lia.
Qed.

Lemma sendToSlack_length webhook msg : List.length (sendToSlack webhook msg) <= 1.
Proof.
  unfold sendToSlack. destruct webhook as [url|]; simpl; [|lia].
  destruct (url =? ""); simpl; lia.
Qed.

Lemma sendToSlack_no_notification webhook msg :
  filter isNotification (sendToSlack webhook msg) = [].
Proof.
  unfold sendToSlack. destruct webhook as [url|]; trivial. now destruct (url =? "").
Qed.

Lemma sendToSlack_posts webhook msg :
  filter isSlackPost (sendToSlack webhook msg) = sendToSlack webhook msg.
Proof.
  unfold sendToSlack. destruct webhook as [url|]; trivial. now destruct (url =? "").
Qed.

Ltac count_emitted :=
  cbv zeta;
  repeat match goal with
         | |- context [if ?b then _ else _] => destruct b
         | |- context [match ?o with Some _ => _ | None => _ end] => destruct o
         end;
  cbn [filter isNotification isSlackPost negb List.length app];
  rewrite ?sendToSlack_no_notification, ?sendToSlack_posts;
  try match goal with
      | |- context [sendToSlack ?w ?m] => pose proof (sendToSlack_length w m)
      end;
  try split; trivial; try lia.

Lemma detectTask_emits currentUser users prevT t :
  List.length (filter isNotification (detectTask currentUser users prevT t)) <= 1
  /\ filter isSlackPost (detectTask currentUser users prevT t) = [].
Proof. unfold detectTask. count_emitted. Qed.

Lemma detectInvoice_emits webhook currentUser prevI i :
  List.length (filter isNotification (detectInvoice webhook currentUser prevI i)) <= 1
  /\ List.length (filter isSlackPost (detectInvoice webhook currentUser prevI i)) <= 1.
Proof.
  unfold detectInvoice.
  destruct (find _ prevI) as [old|]; [|count_emitted].
  rewrite !filter_app, !length_app.
  destruct (InvoiceStatus.eqb (Invoice.status i) InvoiceStatus.COMPLETED);
    rewrite ?andb_false_r, ?andb_true_r; cbn [negb]; rewrite ?andb_false_r;
    count_emitted.
Qed.

Lemma detectEscalation_emits webhook currentUser prevE e :
  List.length (filter isNotification (detectEscalation webhook currentUser prevE e)) <= 1
  /\ List.length (filter isSlackPost (detectEscalation webhook currentUser prevE e)) <= 1.
Proof. unfold detectEscalation. count_emitted. Qed.

Lemma filter_flat_map_nil {A B : Type} (p : B -> bool) (f : A -> list B) l :
  (forall x, filter p (f x) = []) -> filter p (flat_map f l) = [].
Proof.
  intros H. induction l as [|a l IH]; simpl; trivial.
  now rewrite filter_app, H, IH.
Qed.

Lemma detect_without_webhook w currentUser prevI prevE :
  w = None \/ w = Some "" ->
  (forall i, filter isSlackPost (detectInvoice w currentUser prevI i) = [])
  /\ (forall e, filter isSlackPost (detectEscalation w currentUser prevE e) = []).
Proof.
  intros Hw.
  assert (Hs : forall m, sendToSlack w m = []) by (intros m; now destruct Hw as [->| ->]).
  split.
  - intros i. unfold detectInvoice. cbv zeta. rewrite Hs.
    destruct (find _ prevI); [rewrite filter_app|]; count_emitted.
  - intros e. unfold detectEscalation. cbv zeta. rewrite Hs. count_emitted.
Qed.

(** One cycle emits at most one notification per task, invoice and
    escalation of the snapshot, and at most one alert per invoice and
    escalation; tasks never cause an alert, and without a stored webhook no
    alert is sent at all. *)
Theorem cycle_output_bounds refs webhook currentUser (c : Collections) now :
  let out := outputs (cycle refs webhook currentUser c now) in
  List.length (filter isNotification out)
  <= List.length (tasks c) + List.length (invoices c) + List.length (escalations c)
  /\ List.length (filter isSlackPost out)
     <= List.length (invoices c) + List.length (escalations c)
  /\ filter isSlackPost (outputs (cycle refs None currentUser c now)) = []
  /\ filter isSlackPost (outputs (cycle refs (Some "") currentUser c now)) = [].
Proof.
  cbv zeta. unfold cycle, notificationEffect. cbn [outputs].
  assert (Hnone : forall w, w = None \/ w = Some "" ->
            forall cu pt pi pe,
              filter isSlackPost
                (flat_map (detectTask cu (users c) pt) (tasks c)
                 ++ flat_map (detectInvoice w cu pi) (invoices c)
                 ++ flat_map (detectEscalation w cu pe) (escalations c)) = []).
  { intros w Hw cu pt pi pe.
    destruct (detect_without_webhook w cu pi pe Hw) as [Hi He].
    rewrite !filter_app.
    rewrite (filter_flat_map_nil isSlackPost _ (tasks c)
               (fun t => proj2 (detectTask_emits cu (users c) pt t))).
    now rewrite (filter_flat_map_nil isSlackPost _ (invoices c) Hi),
      (filter_flat_map_nil isSlackPost _ (escalations c) He). }
  destruct (isFirstLoad refs).
  { destruct (_ || _); simpl; repeat split; lia. }
  destruct currentUser as [cu|]; [|simpl; repeat split; lia].
  cbn [snd]. split; [|split; [|split]].
  - rewrite !filter_app, !length_app.
    pose proof (filter_length_flat_map isNotification
                  (detectTask cu (users c) (prevTasksRef refs)) (tasks c)
                  (fun t => proj1 (detectTask_emits cu (users c) _ t))).
    pose proof (filter_length_flat_map isNotification
                  (detectInvoice webhook cu (prevInvoicesRef refs)) (invoices c)
                  (fun i => proj1 (detectInvoice_emits webhook cu _ i))).
    pose proof (filter_length_flat_map isNotification
                  (detectEscalation webhook cu (prevEscalationsRef refs)) (escalations c)
                  (fun e => proj1 (detectEscalation_emits webhook cu _ e))).
    lia.
  - rewrite !filter_app, !length_app.
    rewrite (filter_flat_map_nil isSlackPost _ (tasks c)
               (fun t => proj2 (detectTask_emits cu (users c) (prevTasksRef refs) t))).
    cbn [List.length].
    pose proof (filter_length_flat_map isSlackPost
                  (detectInvoice webhook cu (prevInvoicesRef refs)) (invoices c)
                  (fun i => proj2 (detectInvoice_emits webhook cu _ i))).
    pose proof (filter_length_flat_map isSlackPost
                  (detectEscalation webhook cu (prevEscalationsRef refs)) (escalations c)
                  (fun e => proj2 (detectEscalation_emits webhook cu _ e))).
    lia.
  - apply Hnone. now left.
  - apply Hnone. now right.
Qed.

(** ** Who hears of a completed invoice *)

(** When a known invoice arrives as COMPLETED, a viewer who is not a Manager
    gets nothing for it, its assignee included, whatever its previous
    status; a Manager gets the invoice-ready notification exactly on the
    edge into COMPLETED, and nothing while it stays COMPLETED. *)
Theorem completed_invoice_audience webhook currentUser prevI oldInv newInv :
  lookup Invoice.id (Invoice.id newInv) prevI = Some oldInv ->
  Invoice.status newInv = InvoiceStatus.COMPLETED ->
  (User.role currentUser <> UserRole.MANAGER ->
   detectInvoice webhook currentUser prevI newInv = [])
  /\ (User.role currentUser = UserRole.MANAGER ->
      Invoice.status oldInv = InvoiceStatus.COMPLETED ->
      detectInvoice webhook currentUser prevI newInv = [])
  /\ (User.role currentUser = UserRole.MANAGER ->
      Invoice.status oldInv <> InvoiceStatus.COMPLETED ->
      exists msg,
        detectInvoice webhook currentUser prevI newInv
        = addNotification "Invoice Ready" msg true :: sendToSlack webhook msg).
Proof.
  intros Hprev Hnew. unfold detectInvoice. unfold lookup in Hprev.
  rewrite Hprev, Hnew. cbn [InvoiceStatus.eqb negb]. rewrite !andb_false_r, andb_true_r.
  split; [|split].
  - intros Hrole.
    destruct (UserRole.eqb (User.role currentUser) UserRole.MANAGER) eqn:R.
    { apply UserRole_eqb_eq in R. contradiction. }
    now destruct (negb _).
  - intros _ ->. reflexivity.
  - intros Hrole Hold. apply UserRole_eqb_eq in Hrole.
    apply InvoiceStatus_eqb_neq in Hold. rewrite Hrole, Hold. cbn [negb].
    eexists. now rewrite app_nil_r.
Qed.

(** The assignee's own session when Scenario C's invoice is completed. *)
Lemma completed_invoice_audience_witness :
  detectInvoice None Scenario.agent [Scenario.inv1] Scenario.inv1completed = [].
Proof.
  refine (proj1 (completed_invoice_audience None Scenario.agent [Scenario.inv1]
                   Scenario.inv1 Scenario.inv1completed eq_refl eq_refl) _).
  discriminate.
Defined.

(** ** What the automation pass writes *)

(** Every command of the automation pass completes a task of the snapshot
    that was not DONE and carries an inventory link: the written task
    differs from the snapshot's in status and completedAt only.  The pass
    issues at most one command per task. *)
Theorem autoCompleteEffect_frame tasks inventories escalations now :
  (forall c, In c (autoCompleteEffect tasks inventories escalations now) ->
             exists t, In t tasks
                       /\ c = updateTask (markDone now t)
                       /\ Task.status t <> TaskStatus.DONE
                       /\ truthy (Task.inventoryFileId t) = true
                       /\ (exists i ids, Task.inventoryItemIds t = Some (i :: ids))
                       /\ Task.id (markDone now t) = Task.id t
                       /\ Task.assigneeId (markDone now t) = Task.assigneeId t
                       /\ Task.notes (markDone now t) = Task.notes t
                       /\ Task.isEscalated (markDone now t) = Task.isEscalated t)
  /\ List.length (autoCompleteEffect tasks inventories escalations now)
     <= List.length tasks.
Proof.
  split.
  - intros c Hc. apply autoCompleteEffect_in in Hc as [_ [t [Hin Hc]]].
    exists t. split; trivial.
    unfold autoCompleteTask in Hc.
    destruct (TaskStatus.eqb (Task.status t) TaskStatus.DONE) eqn:Hst; [destruct Hc|].
    destruct (truthy (Task.inventoryFileId t)) eqn:Hf; [|destruct Hc].
    destruct (Task.inventoryItemIds t) as [[|i ids]|] eqn:Hids; try destruct Hc.
    cbn [negb orb List.length Nat.eqb] in Hc.
    destruct (hasActiveEscalation _ _); [destruct Hc|].
    destruct (findInventory _ _); [|destruct Hc]. cbv zeta in Hc.
    destruct (List.length _ =? 0)%nat; [destruct Hc|].
    destruct (forallb _ _); [|destruct Hc].
    destruct Hc as [<-|[]].
    apply TaskStatus_eqb_neq in Hst.
    repeat split; trivial. now exists i, ids.
  - unfold autoCompleteEffect. destruct (_ || _); [simpl; lia|].
    induction tasks as [|t ts IH]; simpl; trivial.
    rewrite length_app.
    destruct (autoCompleteTask_cases inventories escalations now t) as [-> | ->];
      simpl; lia.
Qed.

(** ** Rows of the store *)

(** Writing an escalation and reading the row back gives the escalation. *)
Theorem escalation_row_round_trip esc :
  mapEscalationFromDB (mapEscalationToDB esc) = esc.
Proof. now destruct esc. Qed.

(** Writing a task and reading the row back keeps every field except that
    absent tags, notes and attachments come back as empty lists and a
    completedAt of 0 comes back absent; reading back is the identity exactly
    on tasks that have none of these, among them every task already read
    from the store. *)
Theorem task_row_round_trip task :
  (storedTask task = task <->
   Task.tags task <> None /\ Task.notes task <> None /\ Task.attachments task <> None
   /\ Task.completedAt task <> Some 0%Z)
  /\ storedTask (storedTask task) = storedTask task
  /\ Task.id (storedTask task) = Task.id task
  /\ Task.status (storedTask task) = Task.status task
  /\ Task.type (storedTask task) = Task.type task
  /\ Task.assigneeId (storedTask task) = Task.assigneeId task
  /\ Task.isEscalated (storedTask task) = Task.isEscalated task
  /\ Task.inventoryFileId (storedTask task) = Task.inventoryFileId task
  /\ Task.inventoryItemIds (storedTask task) = Task.inventoryItemIds task
  /\ (forall row, storedTask (mapTaskFromDB row) = mapTaskFromDB row).
Proof.
  assert (Hn : forall n, numberIfTruthy (numberIfTruthy n) = numberIfTruthy n).
  { intros [z|]; simpl; trivial. destruct (z =? 0)%Z eqn:E; simpl; trivial. now rewrite E. }
  unfold storedTask, mapTaskFromDB, mapTaskToDB.
  split; [|repeat split].
  - destruct task as [i ti d a s p ty tags due cr co notes atts esc f ids]; simpl. split.
    + intros [= Ht Hc Hn' Ha]. repeat split; try congruence.
      intros ->. simpl in Hc. discriminate.
    + intros [Ht [Hnn [Ha Hc]]].
      destruct tags; [|congruence]. destruct notes; [|congruence].
      destruct atts; [|congruence]. simpl.
      destruct co as [z|]; simpl; trivial.
      destruct (z =? 0)%Z eqn:E; trivial. apply Z.eqb_eq in E. congruence.
  - simpl. now rewrite Hn.
  - intros row. simpl. now rewrite Hn.
Qed.

(** An invoice read from the store never carries an assignee name: the
    row has no column for it.  So the invoice-ready message a Manager gets
    for a stored invoice names its author as undefined. *)
Theorem stored_invoice_has_no_assignee_name row :
  Invoice.assigneeName (mapInvoiceFromDB row) = None
  /\ (forall inv, Invoice.assigneeName (mapInvoiceFromDB (mapInvoiceToDB inv)) = None
                  /\ Invoice.id (mapInvoiceFromDB (mapInvoiceToDB inv)) = Invoice.id inv
                  /\ Invoice.status (mapInvoiceFromDB (mapInvoiceToDB inv)) = Invoice.status inv
                  /\ Invoice.assigneeId (mapInvoiceFromDB (mapInvoiceToDB inv))
                     = Invoice.assigneeId inv
                  /\ Invoice.finalCsvFile (mapInvoiceFromDB (mapInvoiceToDB inv))
                     = Invoice.finalCsvFile inv)
  /\ (forall webhook currentUser prevI oldInv,
        lookup Invoice.id (InvoiceRow.id row) prevI = Some oldInv ->
        Invoice.status oldInv <> InvoiceStatus.COMPLETED ->
        InvoiceRow.status row = InvoiceStatus.COMPLETED ->
        User.role currentUser = UserRole.MANAGER ->
        let msg := ("âœ… Invoice Completed: " ++ dq ++ InvoiceRow.reference_name row ++ dq
                    ++ " by undefined. Ready for upload.")%string in
        detectInvoice webhook currentUser prevI (mapInvoiceFromDB row)
        = addNotification "Invoice Ready" msg true :: sendToSlack webhook msg).
Proof.
  split; [reflexivity | split].
  - intros inv. repeat split.
  - intros webhook currentUser prevI oldInv Hprev Hold Hnew Hrole. cbv zeta.
    unfold detectInvoice. unfold lookup in Hprev. cbn [mapInvoiceFromDB Invoice.id
      Invoice.status Invoice.assigneeName Invoice.referenceName Invoice.assigneeId showOpt].
    rewrite Hprev, Hnew. apply InvoiceStatus_eqb_neq in Hold. rewrite Hold.
    apply UserRole_eqb_eq in Hrole. rewrite Hrole.
    cbn [negb andb InvoiceStatus.eqb]. rewrite app_nil_r. reflexivity.
Qed.

(** ** The user session *)

Section SessionFacts.

Variable stringify : User.t -> string.
Variable parse : string -> option User.t.

(** A stored session is read back as the user it was stored for, from
    whichever storage the remember flag chose; storing replaces whatever
    session either storage held, and clearing leaves none. *)
Theorem session_round_trip user remember st :
  stringify user <> "" ->
  parse (stringify user) = Some user ->
  getUserSession parse (setUserSession stringify user remember st) = Some user
  /\ (forall st', setUserSession stringify user remember st'
                  = setUserSession stringify user remember st)
  /\ getUserSession parse
       (clearUserSession (setUserSession stringify user remember st)) = None.
Proof.
  intros Hne Hparse. apply String.eqb_neq in Hne.
  split; [|split]; trivial.
  unfold getUserSession, setUserSession.
  destruct remember; cbn [localItem sessionItem truthy]; rewrite Hne; cbn [negb]; trivial.
Qed.

End SessionFacts.

Lemma session_round_trip_witness :
  getUserSession (fun s => if s =? "u2" then Some Scenario.agent else None)
    (setUserSession User.id Scenario.agent false (mkBrowserStorage (Some "stale") None))
  = Some Scenario.agent.
Proof.
  refine (proj1 (session_round_trip User.id
                   (fun s => if s =? "u2" then Some Scenario.agent else None)
                   Scenario.agent false (mkBrowserStorage (Some "stale") None) _ _)).
  - discriminate.
  - reflexivity.
Defined.

(** ** Tags and attachments of [TaskBoard] *)

Lemma includes_In arr x : includes arr x = true <-> In x arr.
Proof.
  unfold includes. rewrite existsb_exists. split.
  - intros [y [Hin E]]. apply String.eqb_eq in E. now subst.
  - intros Hin. exists x. split; trivial. apply String.eqb_refl.
Qed.

Lemma includes_app arr arr' x : includes (arr ++ arr') x = includes arr x || includes arr' x.
Proof. unfold includes. apply existsb_app. Qed.

Lemma includes_filter_neq arr tag x :
  includes (filter (fun t => negb (t =? tag)) arr) x
  = negb (x =? tag) && includes arr x.
Proof.
  induction arr as [|a arr IH]; simpl.
  - now rewrite andb_false_r.
  - destruct (a =? tag) eqn:Ea; simpl; rewrite IH.
    + apply String.eqb_eq in Ea. subst a.
      destruct (tag =? x) eqn:Et; simpl; trivial.
      apply String.eqb_eq in Et. subst x. now rewrite String.eqb_refl.
    + destruct (a =? x) eqn:Eax; simpl.
      * apply String.eqb_eq in Eax. subst a. now rewrite Ea.
      * reflexivity.
Qed.

Lemma filter_neq_absent arr tag :
  includes arr tag = false -> filter (fun t => negb (t =? tag)) arr = arr.
Proof.
  induction arr as [|a arr IH]; simpl; trivial.
  intros H. apply orb_false_iff in H as [Ha Hrest].
  rewrite Ha. simpl. now rewrite IH.
Qed.

(** Toggling a tag flips whether it is selected and leaves every other tag
    as it was; a selection without repeats stays without repeats; toggling
    an unselected tag twice gives the selection back. *)
Theorem toggleTag_flips_one tag prev :
  (forall t, includes (toggleTag tag prev) t
             = if t =? tag then negb (includes prev tag) else includes prev t)
  /\ (NoDup prev -> NoDup (toggleTag tag prev))
  /\ (includes prev tag = false -> toggleTag tag (toggleTag tag prev) = prev).
Proof.
  unfold toggleTag. split; [|split].
  - intros t. destruct (includes prev tag) eqn:E.
    + rewrite includes_filter_neq. destruct (t =? tag); reflexivity.
    + rewrite includes_app. simpl. rewrite orb_false_r.
      destruct (t =? tag) eqn:Et.
      * apply String.eqb_eq in Et. subst t. rewrite E. now rewrite String.eqb_refl.
      * rewrite String.eqb_sym, Et. now rewrite orb_false_r.
  - intros Hnd. destruct (includes prev tag) eqn:E.
    + now apply NoDup_filter.
    + apply NoDup_app; trivial.
      * constructor; [intros []| constructor].
      * intros x Hx [<-|[]]. apply includes_In in Hx. congruence.
  - intros E. rewrite E. rewrite includes_app. simpl. rewrite String.eqb_refl.
    rewrite orb_true_r. rewrite filter_app. simpl. rewrite String.eqb_refl. simpl.
    rewrite app_nil_r. now apply filter_neq_absent.
Qed.

Lemma filterFrom_past_index {A : Type} (arr : list A) : forall k j,
  (j < k)%nat -> filterFrom (fun idx _ => negb (idx =? j)%nat) k arr = arr.
Proof.
  induction arr as [|x arr IH]; intros k j Hlt; simpl; trivial.
  replace (k =? j)%nat with false by (symmetry; apply Nat.eqb_neq; lia).
  simpl. f_equal. apply IH. lia.
Qed.

Lemma filterFrom_drops_index {A : Type} (arr : list A) : forall k i,
  filterFrom (fun idx _ => negb (idx =? k + i)%nat) k arr
  = firstn i arr ++ skipn (S i) arr.
Proof.
  induction arr as [|x arr IH]; intros k i; simpl.
  - now destruct i.
  - destruct i as [|i].
    + rewrite Nat.add_0_r, Nat.eqb_refl. simpl. apply filterFrom_past_index. lia.
    + replace (k =? k + S i)%nat with false by (symmetry; apply Nat.eqb_neq; lia).
      simpl. f_equal. replace (k + S i)%nat with (S k + i)%nat by lia. apply IH.
Qed.

(** Deleting the attachment at an index writes the task with exactly that
    position removed and every other attachment kept in order; an index
    past the end still writes the task, with its attachments unchanged. *)
Theorem handleDeleteAttachment_removes_position task atts i :
  Task.attachments task = Some atts ->
  handleDeleteAttachment (Some task) i
  = [updateTask (taskWithAttachments (firstn i atts ++ skipn (S i) atts) task)]
  /\ ((List.length atts <= i)%nat ->
      handleDeleteAttachment (Some task) i = [updateTask task])
  /\ ((i < List.length atts)%nat ->
      List.length (firstn i atts ++ skipn (S i) atts) = (List.length atts - 1)%nat).
Proof.
  intros Hatts. unfold handleDeleteAttachment, handleTaskUpdate, filterIndexed.
  rewrite Hatts. change (fun (idx : nat) (_ : TaskAttachment.t) => negb (idx =? i)%nat)
    with (fun (idx : nat) (_ : TaskAttachment.t) => negb (idx =? 0 + i)%nat).
  rewrite (filterFrom_drops_index atts 0 i).
  split; [reflexivity | split].
  - intros Hle. rewrite firstn_all2 by trivial. rewrite skipn_all2 by lia.
    rewrite app_nil_r. f_equal. f_equal.
    destruct task; simpl in *. now subst.
  - intros Hlt. rewrite length_app, length_firstn, length_skipn. lia.
Qed.

Lemma handleDeleteAttachment_witness :
  handleDeleteAttachment
    (Some (taskWithAttachments
             [TaskAttachment.mk "a.pdf" (Some "#") AttachmentType.pdf;
              TaskAttachment.mk "b.csv" None AttachmentType.csv;
              TaskAttachment.mk "c.pdf" None AttachmentType.pdf] Scenario.t2)) 1
  = [updateTask (taskWithAttachments
                   [TaskAttachment.mk "a.pdf" (Some "#") AttachmentType.pdf;
                    TaskAttachment.mk "c.pdf" None AttachmentType.pdf] Scenario.t2)].
Proof.
  exact (proj1 (handleDeleteAttachment_removes_position
                  (taskWithAttachments
                     [TaskAttachment.mk "a.pdf" (Some "#") AttachmentType.pdf;
                      TaskAttachment.mk "b.csv" None AttachmentType.csv;
                      TaskAttachment.mk "c.pdf" None AttachmentType.pdf] Scenario.t2)
                  _ 1 eq_refl)).
Defined.

(** ** The rows of the tracker *)

Lemma existsb_status_In s ss :
  existsb (fun x => TaskStatus.eqb x s) ss = true <-> In s ss.
Proof.
  rewrite existsb_exists. split.
  - intros [x [Hin E]]. apply TaskStatus_eqb_eq in E. now subst.
  - intros Hin. exists s. split; trivial. apply TaskStatus_eqb_refl.
Qed.

Lemma every_done_as_some ss :
  forallb (fun s => TaskStatus.eqb s TaskStatus.DONE) ss
  = negb (existsb (fun x => TaskStatus.eqb x TaskStatus.TODO) ss
          || existsb (fun x => TaskStatus.eqb x TaskStatus.IN_PROGRESS) ss
          || existsb (fun x => TaskStatus.eqb x TaskStatus.ON_HOLD) ss).
Proof.
  induction ss as [|a ss IH]; simpl; trivial. rewrite IH.
  destruct a; simpl; trivial;
    now repeat (rewrite ?orb_true_r; simpl).
Qed.

Lemma every_todo_as_some ss :
  forallb (fun s => TaskStatus.eqb s TaskStatus.TODO) ss
  = negb (existsb (fun x => TaskStatus.eqb x TaskStatus.IN_PROGRESS) ss
          || existsb (fun x => TaskStatus.eqb x TaskStatus.ON_HOLD) ss
          || existsb (fun x => TaskStatus.eqb x TaskStatus.DONE) ss).
Proof.
  induction ss as [|a ss IH]; simpl; trivial. rewrite IH.
  destruct a; simpl; trivial;
    now repeat (rewrite ?orb_true_r; simpl).
Qed.

Lemma some_status_of_nonempty ss :
  ss <> [] ->
  existsb (fun x => TaskStatus.eqb x TaskStatus.TODO) ss
  || existsb (fun x => TaskStatus.eqb x TaskStatus.IN_PROGRESS) ss
  || existsb (fun x => TaskStatus.eqb x TaskStatus.ON_HOLD) ss
  || existsb (fun x => TaskStatus.eqb x TaskStatus.DONE) ss = true.
Proof.
  destruct ss as [|a ss]; [congruence|]. intros _.
  destruct a; simpl; now repeat (rewrite ?orb_true_r; simpl).
Qed.

Lemma every_status_In s ss :
  forallb (fun x => TaskStatus.eqb x s) ss = true <-> (forall x, In x ss -> x = s).
Proof.
  rewrite forallb_forall. split; intros H x Hin.
  - now apply TaskStatus_eqb_eq, H.
  - now apply TaskStatus_eqb_eq, H.
Qed.

(** The status a tracker row shows for its group: DONE exactly when every
    task of the group is DONE; IN_PROGRESS as soon as one task is in
    progress, or one is DONE while another is still TODO; ON_HOLD only when
    some task is on hold; and, for a group that is not empty, TODO exactly
    when every task is TODO. *)
Theorem compositeStatus_cases ss :
  (TrackerRow.compositeStatus ss = TaskStatus.DONE
   <-> forall s, In s ss -> s = TaskStatus.DONE)
  /\ (In TaskStatus.IN_PROGRESS ss \/ (In TaskStatus.DONE ss /\ In TaskStatus.TODO ss)
      <-> TrackerRow.compositeStatus ss = TaskStatus.IN_PROGRESS)
  /\ (TrackerRow.compositeStatus ss = TaskStatus.ON_HOLD -> In TaskStatus.ON_HOLD ss)
  /\ (ss <> [] ->
      (TrackerRow.compositeStatus ss = TaskStatus.TODO
       <-> forall s, In s ss -> s = TaskStatus.TODO)).
Proof.
  unfold TrackerRow.compositeStatus.
  rewrite <- !every_status_In, <- !existsb_status_In.
  pose proof (some_status_of_nonempty ss) as Hne.
  rewrite every_done_as_some, every_todo_as_some.
  destruct (existsb (fun x => TaskStatus.eqb x TaskStatus.TODO) ss),
           (existsb (fun x => TaskStatus.eqb x TaskStatus.IN_PROGRESS) ss),
           (existsb (fun x => TaskStatus.eqb x TaskStatus.ON_HOLD) ss),
           (existsb (fun x => TaskStatus.eqb x TaskStatus.DONE) ss);
    simpl in *; repeat split; try congruence; try tauto;
    try (intros; exfalso; intuition congruence);
    try (intros [?|[? ?]]; congruence).
Qed.

Lemma existsb_priority_In p ps :
  existsb (fun x => TrackerRow.priorityEqb x p) ps = true <-> In p ps.
Proof.
  rewrite existsb_exists. split.
  - intros [x [Hin E]]. destruct x, p; simpl in E; congruence.
  - intros Hin. exists p. split; trivial. now destruct p.
Qed.

(** The priority a tracker row shows is the highest priority of its group:
    no task of the group ranks above it, and some task of a group that is
    not empty has it. *)
Theorem compositePriority_is_max ps :
  (forall p, In p ps ->
             (TrackerRow.priorityRank p
              <= TrackerRow.priorityRank (TrackerRow.compositePriority ps))%nat)
  /\ (ps <> [] -> In (TrackerRow.compositePriority ps) ps).
Proof.
  unfold TrackerRow.compositePriority.
  destruct (existsb (fun x => TrackerRow.priorityEqb x TaskPriority.CRITICAL) ps) eqn:Ec;
  [|destruct (existsb (fun x => TrackerRow.priorityEqb x TaskPriority.HIGH) ps) eqn:Eh;
    [|destruct (existsb (fun x => TrackerRow.priorityEqb x TaskPriority.MEDIUM) ps) eqn:Em]];
  (split;
   [ intros p Hin; apply existsb_priority_In in Hin; destruct p; simpl; try lia; congruence
   | intros Hne; try (now apply existsb_priority_In) ]).
  destruct ps as [|p ps]; [congruence|]. left.
  destruct p; trivial; simpl in *; congruence.
Qed.

Lemma uniqueStep_fold l : forall acc,
  fst acc = map TrackerRow.attachmentKey (snd acc) ->
  NoDup (fst acc) ->
  fst (fold_left TrackerRow.uniqueStep l acc)
  = map TrackerRow.attachmentKey (snd (fold_left TrackerRow.uniqueStep l acc))
  /\ NoDup (fst (fold_left TrackerRow.uniqueStep l acc))
  /\ (forall a, In a (snd (fold_left TrackerRow.uniqueStep l acc)) ->
                In a (snd acc) \/ In a l)
  /\ (forall k, In k (fst acc) \/ In k (map TrackerRow.attachmentKey l) ->
                In k (fst (fold_left TrackerRow.uniqueStep l acc))).
Proof.
  induction l as [|a l IH]; intros acc Hkeys Hnd; simpl.
  - repeat split; trivial; [now left | now intros k [H|[]]].
  - assert (Hstep : fst (TrackerRow.uniqueStep acc a)
                    = map TrackerRow.attachmentKey (snd (TrackerRow.uniqueStep acc a))
                    /\ NoDup (fst (TrackerRow.uniqueStep acc a))
                    /\ (forall x, In x (snd (TrackerRow.uniqueStep acc a)) ->
                                  In x (snd acc) \/ x = a)
                    /\ (forall k, In k (fst acc) \/ k = TrackerRow.attachmentKey a ->
                                  In k (fst (TrackerRow.uniqueStep acc a)))).
    { unfold TrackerRow.uniqueStep.
      destruct (includes (fst acc) (TrackerRow.attachmentKey a)) eqn:E; simpl.
      - repeat split; trivial; [now left|].
        intros k [H| ->]; trivial. now apply includes_In.
      - repeat split.
        + rewrite map_app, Hkeys. reflexivity.
        + apply NoDup_app; trivial.
          * constructor; [intros []|constructor].
          * intros x Hx [<-|[]]. apply includes_In in Hx. congruence.
        + intros x Hx. apply in_app_or in Hx as [Hx|[<-|[]]]; [now left | now right].
        + intros k [H| ->]; apply in_or_app; [now left | right; now left]. }
    destruct Hstep as [S1 [S2 [S3 S4]]].
    destruct (IH _ S1 S2) as [R1 [R2 [R3 R4]]].
    repeat split; trivial.
    + intros x Hx. destruct (R3 x Hx) as [H|H]; [|now right; right].
      destruct (S3 x H) as [H'| ->]; [now left | right; now left].
    + intros k [H|[<-|H]]; apply R4; [left; apply S4; now left
                                    | left; apply S4; now right | now right].
Qed.

(** The attachments a tracker row lists: no two of them share a key (name
    followed by url), each comes from a task of the group, and every
    attachment of the group is represented by one with its key. *)
Theorem uniqueAtts_keys groupTasks :
  NoDup (map TrackerRow.attachmentKey (TrackerRow.uniqueAtts groupTasks))
  /\ (forall a, In a (TrackerRow.uniqueAtts groupTasks) ->
                exists t, In t groupTasks /\ In a (orEmpty (Task.attachments t)))
  /\ (forall t a, In t groupTasks -> In a (orEmpty (Task.attachments t)) ->
                  In (TrackerRow.attachmentKey a)
                     (map TrackerRow.attachmentKey (TrackerRow.uniqueAtts groupTasks))).
Proof.
  unfold TrackerRow.uniqueAtts.
  destruct (uniqueStep_fold
              (flat_map (fun t => orEmpty (Task.attachments t)) groupTasks)
              ([], []) eq_refl (NoDup_nil _)) as [R1 [R2 [R3 R4]]].
  cbv zeta. rewrite <- R1. split; [trivial | split].
  - intros a Hin. destruct (R3 a Hin) as [[]|H].
    apply in_flat_map in H. exact H.
  - intros t a Ht Ha. apply R4. right. apply in_map. apply in_flat_map. now exists t.
Qed.

(** Selecting a status on a tracker row writes each task of the row that
    does not have it yet, with that status and nothing else changed, and no
    other task; once the writes are in the row, the row shows the selected
    status and selecting it again writes nothing. *)
Theorem tracker_status_select_settles originalTasks newStatus :
  DashboardTracker.handleStatusChange originalTasks newStatus
  = map (fun t => updateTask (Task.with_status newStatus t))
        (filter (fun t => negb (TaskStatus.eqb (Task.status t) newStatus)) originalTasks)
  /\ (forall t, Task.status t = newStatus -> Task.with_status newStatus t = t)
  /\ DashboardTracker.handleStatusChange
       (map (Task.with_status newStatus) originalTasks) newStatus = []
  /\ (originalTasks <> [] ->
      TrackerRow.compositeStatus
        (map Task.status (map (Task.with_status newStatus) originalTasks)) = newStatus).
Proof.
  unfold DashboardTracker.handleStatusChange, handleTaskUpdate.
  split; [|split; [|split]].
  - induction originalTasks as [|t ts IH]; simpl; trivial.
    destruct (TaskStatus.eqb (Task.status t) newStatus); simpl; now rewrite IH.
  - intros t <-. now destruct t.
  - induction originalTasks as [|t ts IH]; simpl; trivial.
    rewrite TaskStatus_eqb_refl. simpl. exact IH.
  - intros Hne. rewrite map_map. cbn [Task.with_status Task.status].
    assert (Hall : forall s, In s (map (fun _ : Task.t => newStatus) originalTasks)
                             -> s = newStatus).
    { intros s Hin. apply in_map_iff in Hin as [_ [<- _]]. reflexivity. }
    assert (Hne' : map (fun _ : Task.t => newStatus) originalTasks <> []).
    { destruct originalTasks; [congruence | discriminate]. }
    assert (Hin : In newStatus (map (fun _ : Task.t => newStatus) originalTasks)).
    { destruct originalTasks; [congruence | now left]. }
    destruct (compositeStatus_cases (map (fun _ : Task.t => newStatus) originalTasks))
      as [Hd [Hp [Hh Ht]]].
    destruct newStatus.
    + now apply Ht.
    + apply Hp. now left.
    + destruct (TrackerRow.compositeStatus (map (fun _ : Task.t => TaskStatus.ON_HOLD)
                                                originalTasks)) eqn:E; trivial.
      * pose proof (proj1 (Ht Hne') eq_refl _ Hin). discriminate.
      * destruct (proj2 Hp eq_refl) as [H|[H _]]; apply Hall in H; discriminate.
      * pose proof (proj1 Hd eq_refl _ Hin). discriminate.
    + now apply Hd.
Qed.

(** ** The counters of the dashboard *)

(** The four status counters of the dashboard partition the tasks: they
    add up to the number of tasks. *)
Theorem statusCounts_partition tasks :
  (todo (statusCounts tasks) + inProgress (statusCounts tasks)
   + onHold (statusCounts tasks) + done (statusCounts tasks))%nat
  = List.length tasks.
Proof.
  unfold statusCounts; cbn [todo inProgress onHold done].
  induction tasks as [|t ts IH]; simpl; trivial.
  destruct (Task.status t); simpl; lia.
Qed.

(** ** The inventory workflow and the automation *)

Lemma find_map_preserving {A : Type} (p : A -> bool) (g : A -> A) (l : list A) :
  (forall x, p (g x) = p x) -> find p (map g l) = option_map g (find p l).
Proof.
  intros Hp. induction l as [|x l IH]; simpl; trivial.
  rewrite Hp. destruct (p x); simpl; trivial.
Qed.

Lemma filter_map_preserving {A : Type} (p : A -> bool) (g : A -> A) (l : list A) :
  (forall x, p (g x) = p x) -> filter p (map g l) = map g (filter p l).
Proof.
  intros Hp. induction l as [|x l IH]; simpl; trivial.
  rewrite Hp. destruct (p x); simpl; now rewrite IH.
Qed.

Lemma findInventory_applyUpdateItems fileId items inventories fid inv :
  findInventory inventories fid = Some inv ->
  findInventory (InventoryManager.applyUpdateItems fileId items inventories) fid
  = Some (if InventoryFile.id inv =? fileId
          then InventoryFile.mk (InventoryFile.id inv) (InventoryFile.fileName inv)
                                (InventoryFile.uploadDate inv) (InventoryFile.rowCount inv)
                                items
          else inv).
Proof.
  intros Hfind. unfold findInventory, InventoryManager.applyUpdateItems in *.
  rewrite find_map_preserving.
  - now rewrite Hfind.
  - intros x. destruct (InventoryFile.id x =? fileId); reflexivity.
Qed.

Lemma findInventory_id inventories fid inv :
  findInventory inventories fid = Some inv -> fid = Some (InventoryFile.id inv).
Proof.
  unfold findInventory. intros H. apply find_some in H as [_ H].
  destruct fid as [f|]; [|discriminate]. apply String.eqb_eq in H. now subst.
Qed.

Lemma every_false_of_nonempty {A : Type} (f : A -> bool) (l : list A) :
  l <> [] -> (forall x, In x l -> f x = false) -> forallb f l = false.
Proof.
  destruct l as [|x l]; [congruence|]. intros _ H. simpl.
  rewrite (H x); [reflexivity | now left].
Qed.

Lemma length_eqb_0_false {A : Type} (l : list A) :
  (List.length l =? 0)%nat = false <-> l <> [].
Proof. destruct l; simpl; split; congruence. Qed.

(** When an agent marks the selected rows of a task's file and the
    selection covers the task's items, with a status that counts as
    complete for the task's type, the next automation pass on the updated
    file completes the task (it is not DONE yet and has no active
    escalation). *)
Theorem marked_items_complete_the_task
    inv inventories escalations task ids selectedIds newStatus now :
  truthy (Task.inventoryFileId task) = true ->
  findInventory inventories (Task.inventoryFileId task) = Some inv ->
  Task.inventoryItemIds task = Some ids ->
  relevantItems inv (Some ids) <> [] ->
  (forall i, In i ids -> In i selectedIds) ->
  Task.status task <> TaskStatus.DONE ->
  hasActiveEscalation escalations task = false ->
  newStatus = InventoryStatus.QA_COMPLETE
  \/ (newStatus = InventoryStatus.AUGMENTED /\ Task.type task <> TaskType.QA) ->
  autoCompleteTask
    (InventoryManager.applyRequests
       (InventoryManager.handleAgentStatusUpdate (Some inv) selectedIds newStatus)
       inventories)
    escalations now task
  = [updateTask (markDone now task)].
Proof.
  intros Htruthy Hfind Hids Hrel Hsel Hstatus Hesc Hnew.
  unfold InventoryManager.handleAgentStatusUpdate, InventoryManager.applyRequests.
  cbn [fold_left InventoryManager.applyRequest].
  unfold autoCompleteTask.
  apply TaskStatus_eqb_neq in Hstatus. rewrite Hstatus, Htruthy, Hids, Hesc.
  assert (Hne : ids <> []).
  { intros ->. apply Hrel. unfold relevantItems. simpl.
    induction (InventoryFile.data inv); simpl; trivial. }
  apply length_eqb_0_false in Hne. rewrite Hne. cbn [negb orb].
  rewrite (findInventory_applyUpdateItems _ _ _ _ _ Hfind), String.eqb_refl.
  unfold relevantItems in *. cbn [InventoryFile.data].
  rewrite filter_map_preserving
    by (intros x; destruct (includes selectedIds (InventoryItem.id x)) eqn:E;
        cbn; rewrite ?E; reflexivity).
  rewrite length_map. apply length_eqb_0_false in Hrel. rewrite Hrel.
  replace (forallb _ _) with true; trivial.
  symmetry. apply forallb_forall. intros x Hx.
  apply in_map_iff in Hx as [y [<- Hy]]. apply filter_In in Hy as [_ Hy].
  apply includes_In, Hsel, includes_In in Hy. rewrite Hy.
  unfold itemComplete. cbn [InventoryManager.itemWithStatus InventoryItem.status].
  destruct Hnew as [-> | [-> Hty]].
  - destruct (TaskType.eqb (Task.type task) TaskType.QA); reflexivity.
  - destruct (TaskType.eqb (Task.type task) TaskType.QA) eqn:E; trivial.
    apply TaskType_eqb_eq in E. contradiction.
Qed.

Lemma marked_items_witness :
  autoCompleteTask
    (InventoryManager.applyRequests
       (InventoryManager.handleAgentStatusUpdate
          (Some (InventoryFile.mk "f1" "studio-a.csv" 900 3
                   [Scenario.item "i1" InventoryStatus.ASSIGNED_QA;
                    Scenario.item "i2" InventoryStatus.ASSIGNED_QA;
                    Scenario.item "i3" InventoryStatus.PENDING]))
          ["i1"; "i2"] InventoryStatus.QA_COMPLETE)
       [InventoryFile.mk "f1" "studio-a.csv" 900 3
          [Scenario.item "i1" InventoryStatus.ASSIGNED_QA;
           Scenario.item "i2" InventoryStatus.ASSIGNED_QA;
           Scenario.item "i3" InventoryStatus.PENDING]])
    [] 5000 Scenario.t1
  = [updateTask (markDone 5000 Scenario.t1)].
Proof.
  apply (marked_items_complete_the_task _ _ _ _ ["i1"; "i2"]).
  - reflexivity.
  - reflexivity.
  - reflexivity.
  - discriminate.
  - intros i H. exact H.
  - discriminate.
  - reflexivity.
  - now left.
Defined.

Lemma assigned_item_incomplete ty assignType a x :
  itemComplete ty
    (InventoryManager.itemAssigned (InventoryManager.assignedStatus assignType) a x) = false.
Proof. unfold itemComplete. destruct (TaskType.eqb ty TaskType.QA), assignType; reflexivity. Qed.

(** With both writes of an assignment in the collections, the pass issues
    nothing for the task the assignment created: the items the task tracks
    have an assigned status. *)
Lemma settled_assignment_is_not_completed
    toISOString activeInventory currentUser selectedIds assignType selectedAssignee
    assignDueDate now inventories escalations now' :
  Forall (fun t =>
            autoCompleteTask
              (InventoryManager.applyRequests
                 (InventoryManager.handleAssignSubmit toISOString activeInventory
                    currentUser selectedIds assignType selectedAssignee assignDueDate now)
                 inventories)
              escalations now' t = [])
         (InventoryManager.createdTasks
            (InventoryManager.handleAssignSubmit toISOString activeInventory
               currentUser selectedIds assignType selectedAssignee assignDueDate now)).
Proof.
  destruct activeInventory as [inv|]; [|constructor].
  unfold InventoryManager.handleAssignSubmit, InventoryManager.applyRequests.
  cbn [InventoryManager.createdTasks flat_map app fold_left InventoryManager.applyRequest].
  constructor; [|constructor].
  unfold autoCompleteTask.
  cbn [Task.status Task.inventoryFileId Task.inventoryItemIds Task.type TaskStatus.eqb].
  destruct (negb (truthy (Some (InventoryFile.id inv)))
            || (List.length selectedIds =? 0)%nat); trivial.
  destruct (hasActiveEscalation _ _); trivial.
  destruct (findInventory inventories (Some (InventoryFile.id inv))) as [f|] eqn:Hfind.
  - rewrite (findInventory_applyUpdateItems _ _ _ _ _ Hfind).
    apply findInventory_id in Hfind. injection Hfind as Hfind.
    rewrite <- Hfind, String.eqb_refl.
    unfold relevantItems. cbn [InventoryFile.data].
    rewrite filter_map_preserving
      by (intros x; destruct (includes selectedIds (InventoryItem.id x)) eqn:E;
        cbn; rewrite ?E; reflexivity).
    destruct (List.length _ =? 0)%nat eqn:Elen; trivial.
    apply length_eqb_0_false in Elen.
    rewrite every_false_of_nonempty; trivial.
    intros x Hx. apply in_map_iff in Hx as [y [<- Hy]].
    apply filter_In in Hy as [_ Hy]. rewrite Hy. apply assigned_item_incomplete.
  - replace (findInventory _ _) with (@None InventoryFile.t); trivial.
    symmetry. unfold findInventory, InventoryManager.applyUpdateItems in *.
    rewrite find_map_preserving, Hfind; trivial.
    intros x. destruct (InventoryFile.id x =? InventoryFile.id inv) eqn:E;
      cbn; rewrite ?E; reflexivity.
Qed.

(** An assignment sends two writes, the new task first and the updated
    items second.  Once both are in the collections the automation pass
    issues nothing for the new task, whatever the file, the selection and
    the escalations.  Between the two writes the pass reads the items as
    they were, and then it does complete the new task when the selected
    rows were complete already: a QA assignment over the two QA-complete
    rows of Scenario A is completed at once. *)
Theorem assignment_completes_only_between_its_writes
    toISOString activeInventory currentUser selectedIds assignType selectedAssignee
    assignDueDate now inventories escalations now' :
  let requests :=
    InventoryManager.handleAssignSubmit toISOString activeInventory currentUser
      selectedIds assignType selectedAssignee assignDueDate now in
  let scenarioA :=
    InventoryManager.handleAssignSubmit toISOString (Some Scenario.f1) Scenario.manager
      ["i1"; "i2"] InventoryManager.QA "u2" "2026-02-01" 4000 in
  (forall inv, activeInventory = Some inv ->
     exists t items,
       requests = [InventoryManager.addTaskRequest t;
                   InventoryManager.updateInventoryItems (InventoryFile.id inv) items])
  /\ Forall (fun t =>
               autoCompleteTask (InventoryManager.applyRequests requests inventories)
                                escalations now' t = [])
            (InventoryManager.createdTasks requests)
  /\ Forall (fun t =>
               autoCompleteTask
                 (InventoryManager.applyRequests (firstn 1 requests) inventories)
                 escalations now' t
               = autoCompleteTask inventories escalations now' t)
            (InventoryManager.createdTasks requests)
  /\ (exists t,
        InventoryManager.createdTasks scenarioA = [t]
        /\ autoCompleteTask
             (InventoryManager.applyRequests (firstn 1 scenarioA) [Scenario.f1])
             [] 5000 t
           = [updateTask (markDone 5000 t)]
        /\ autoCompleteTask
             (InventoryManager.applyRequests scenarioA [Scenario.f1]) [] 5000 t
           = []).
Proof.
  cbv zeta. split; [|split; [|split]].
  - intros inv ->. eexists. eexists. reflexivity.
  - apply settled_assignment_is_not_completed.
  - destruct activeInventory as [inv|]; [|constructor].
    constructor; [reflexivity | constructor].
  - eexists. split; [reflexivity|]. split; reflexivity.
Qed.

(** ** Completing an invoice *)

(** Submitting an invoice as complete hands nothing to the update handler
    exactly when there is neither a picked file nor a stored final CSV, or
    the picked file cannot be read.  Otherwise the invoice handed over is
    the same invoice, COMPLETED, stamped with the current time and carrying
    a final CSV (named after the picked file, or the stored one when none
    was picked), and the manager-review task built from it has that CSV as
    its single attachment. *)
Theorem handleMarkComplete_hands_over_a_final_csv invoice finalFile now :
  (handleMarkComplete invoice finalFile now = None
   <-> (finalFile = None /\ Invoice.finalCsvFile invoice = None)
       \/ (exists file, finalFile = Some file /\ InvoiceManager.readResult file = None))
  /\ (forall updated,
        handleMarkComplete invoice finalFile now = Some updated ->
        Invoice.status updated = InvoiceStatus.COMPLETED
        /\ Invoice.id updated = Invoice.id invoice
        /\ Invoice.completedAt updated = Some now
        /\ exists csv,
             Invoice.finalCsvFile updated = Some csv
             /\ (forall file, finalFile = Some file ->
                              InvoiceFileMeta.name csv = InvoiceManager.fileName file
                              /\ InvoiceFileMeta.type csv = InvoiceFileType.csv
                              /\ InvoiceFileMeta.content csv = InvoiceManager.readResult file)
             /\ (finalFile = None -> Invoice.finalCsvFile invoice = Some csv)
             /\ (forall toISOString at_ manager,
                   Task.attachments (managerTask toISOString at_ manager updated)
                   = Some [TaskAttachment.mk (InvoiceFileMeta.name csv) (Some "#")
                                             AttachmentType.csv])).
Proof.
  unfold handleMarkComplete. split.
  - destruct finalFile as [file|].
    + destruct (InvoiceManager.readResult file) eqn:E; split; try discriminate.
      * intros [[H _]|[f [[= <-] H]]]; congruence.
      * intros _. right. now exists file.
      * trivial.
    + destruct (Invoice.finalCsvFile invoice); split; try discriminate.
      * intros [[_ H]|[f [H _]]]; discriminate.
      * intros _. now left.
      * trivial.
  - intros updated H.
    destruct finalFile as [file|].
    + destruct (InvoiceManager.readResult file) eqn:E; [|discriminate].
      injection H as <-. repeat split.
      eexists. split; [reflexivity|]. split; [|split; [discriminate | reflexivity]].
      intros f [= <-]. now rewrite E.
    + destruct (Invoice.finalCsvFile invoice) as [kept|] eqn:E; [|discriminate].
      injection H as <-. repeat split.
      exists kept. split; [reflexivity|]. split; [discriminate|]. split; reflexivity.
Qed.

(** ** Escalations and the automation *)

Section UpsertFacts.
Variable A : Type.
Variable key : A -> string.



End UpsertFacts.


(** ** What the tracker lists *)

(** Of the tasks the application creates by itself, the grouping loop of
    the tracker returns at its title guard for the manager-review tasks, so
    none of them is ever put in a row; the companion task of an invoice and
    the task of an inventory assignment pass the guard and go on to the
    grouping. *)
Theorem tracker_skips_manager_review_tasks toISOString :
  (forall now manager updatedInvoice,
     TrackerRow.skipped (managerTask toISOString now manager updatedInvoice) = true)
  /\ (forall now newInvoice,
        Forall (fun c => match c with
                         | addTask t => TrackerRow.skipped t = false
                         | _ => True
                         end)
               (handleAddInvoice toISOString now newInvoice))
  /\ (forall activeInventory currentUser selectedIds assignType selectedAssignee
             assignDueDate now,
        Forall (fun t => TrackerRow.skipped t = false)
               (InventoryManager.createdTasks
                  (InventoryManager.handleAssignSubmit toISOString activeInventory
                     currentUser selectedIds assignType selectedAssignee
                     assignDueDate now))).
Proof.
  split; [|split].
  - reflexivity.
  - intros now newInvoice. repeat constructor.
  - intros [inv|] currentUser selectedIds assignType selectedAssignee assignDueDate now;
      [|constructor].
    destruct assignType; repeat constructor.
Qed.

(** ** Selecting rows of an inventory file *)

Lemma includes_setAdd r s x :
  includes (InventoryManager.setAdd r s) x = (r =? x) || includes s x.
Proof.
  unfold InventoryManager.setAdd. destruct (includes s r) eqn:E.
  - destruct (r =? x) eqn:Er; trivial. apply String.eqb_eq in Er. now subst.
  - rewrite includes_app. simpl. rewrite orb_false_r. apply orb_comm.
Qed.

Lemma includes_setDelete r s x :
  includes (InventoryManager.setDelete r s) x = negb (r =? x) && includes s x.
Proof.
  unfold InventoryManager.setDelete. rewrite includes_filter_neq.
  now rewrite (String.eqb_sym x r).
Qed.

Lemma includes_fold_toggle (isAdding : bool) rangeIds : forall prev x,
  includes (fold_left (fun newSelected rid =>
                         if isAdding then InventoryManager.setAdd rid newSelected
                         else InventoryManager.setDelete rid newSelected)
                      rangeIds prev) x
  = if includes rangeIds x then isAdding else includes prev x.
Proof.
  induction rangeIds as [|r rs IH]; intros prev x; simpl; trivial.
  rewrite IH. destruct (includes rs x) eqn:E.
  - now rewrite orb_true_r.
  - rewrite orb_false_r. destruct isAdding.
    + rewrite includes_setAdd. now destruct (r =? x).
    + rewrite includes_setDelete. now destruct (r =? x).
Qed.

Lemma findIndex_nth {A : Type} (p : A -> bool) (arr : list A) : forall n,
  InventoryManager.findIndex p arr = Some n ->
  exists x, nth_error arr n = Some x /\ p x = true.
Proof.
  induction arr as [|a arr IH]; intros n; simpl; [discriminate|].
  destruct (p a) eqn:E.
  - intros [= <-]. now exists a.
  - destruct (InventoryManager.findIndex p arr) as [m|]; [|discriminate].
    intros [= <-]. apply (IH m eq_refl).
Qed.

Lemma In_slice {A : Type} (arr : list A) start end_ n x :
  nth_error arr n = Some x -> (start <= n < end_)%nat ->
  In x (InventoryManager.slice start end_ arr).
Proof.
  intros Hnth Hrange. unfold InventoryManager.slice.
  apply (nth_error_In _ (n - start)).
  rewrite nth_error_firstn.
  replace (n - start <? end_ - start)%nat with true
    by (symmetry; apply Nat.ltb_lt; lia).
  rewrite nth_error_skipn. now replace (start + (n - start))%nat with n by lia.
Qed.

Lemma slice_incl {A : Type} (arr : list A) start end_ x :
  In x (InventoryManager.slice start end_ arr) -> In x arr.
Proof.
  unfold InventoryManager.slice. intros H.
  assert (Hf : forall n (l : list A), In x (firstn n l) -> In x l).
  { induction n as [|n IH]; intros [|a l]; simpl; try tauto.
    intros [->|Hin]; [now left | right; now apply IH]. }
  assert (Hs : forall n (l : list A), In x (skipn n l) -> In x l).
  { induction n as [|n IH]; intros [|a l]; simpl; try tauto.
    intros Hin. right. now apply IH. }
  eapply Hs, Hf, H.
Qed.

Lemma findIndex_firstPosition rows k : forall n,
  firstPosition rows k n ->
  InventoryManager.findIndex (fun i => InventoryItem.id i =? k) rows = Some n.
Proof.
  induction rows as [|a rows IH]; intros n [[r [Hnth Hid]] Hfirst].
  - now destruct n.
  - simpl. destruct (InventoryItem.id a =? k) eqn:Ea.
    + apply String.eqb_eq in Ea. destruct n as [|n]; trivial.
      exfalso. apply (Hfirst 0%nat a); [lia | reflexivity | trivial].
    + apply String.eqb_neq in Ea. destruct n as [|n].
      * simpl in Hnth. injection Hnth as <-. contradiction.
      * rewrite (IH n); trivial. split; [now exists r|].
        intros m r' Hm Hr'. apply (Hfirst (S m) r'); [lia | exact Hr'].
Qed.

Lemma findIndex_absent rows k :
  (forall r, In r rows -> InventoryItem.id r <> k) ->
  InventoryManager.findIndex (fun i => InventoryItem.id i =? k) rows = None.
Proof.
  induction rows as [|a rows IH]; intros H; simpl; trivial.
  replace (InventoryItem.id a =? k) with false
    by (symmetry; apply String.eqb_neq, H; now left).
  rewrite IH; trivial. intros r Hin. apply H. now right.
Qed.

Lemma slice_nth {A : Type} (arr : list A) start end_ x :
  In x (InventoryManager.slice start end_ arr) ->
  exists n, (start <= n < end_)%nat /\ nth_error arr n = Some x.
Proof.
  unfold InventoryManager.slice. intros Hin.
  apply In_nth_error in Hin as [m Hm].
  rewrite nth_error_firstn in Hm.
  destruct (m <? end_ - start)%nat eqn:Elt; [|discriminate].
  apply Nat.ltb_lt in Elt. rewrite nth_error_skipn in Hm.
  exists (start + m)%nat. split; [lia | exact Hm].
Qed.

Lemma includes_range_between rows a b x :
  includes (map InventoryItem.id
              (InventoryManager.slice (Nat.min a b) (Nat.max a b + 1) rows)) x = true
  <-> between rows a b x.
Proof.
  rewrite includes_In, in_map_iff. unfold between. split.
  - intros [r [Hid Hin]]. apply slice_nth in Hin as [n [Hn Hnth]].
    exists n, r. split; [lia | now split].
  - intros [n [r [Hn [Hnth Hid]]]]. exists r. split; trivial.
    apply (In_slice _ _ _ n); trivial. lia.
Qed.

(** A click on a row sets the selection of the affected rows to the
    opposite of the clicked row's previous state and leaves every other row
    as it was.  A plain click affects the clicked row alone, and so does a
    shift-click when no row was clicked before or when that row or the
    clicked row is not on screen.  A shift-click with both on screen affects
    exactly the rows on screen from the first position of the one to the
    first position of the other, both included. *)
Theorem toggleSelect_flips_a_range filteredData lastSelectedId id shiftKey prev :
  ((shiftKey = false
    \/ lastSelectedId = None
    \/ lastSelectedId = Some ""
    \/ (forall r, In r filteredData -> Some (InventoryItem.id r) <> lastSelectedId)
    \/ (forall r, In r filteredData -> InventoryItem.id r <> id)) ->
   forall x,
     includes (InventoryManager.toggleSelect filteredData lastSelectedId id shiftKey prev) x
     = if x =? id then negb (includes prev id) else includes prev x)
  /\ (forall last a b,
        shiftKey = true ->
        lastSelectedId = Some last ->
        last <> "" ->
        firstPosition filteredData last a ->
        firstPosition filteredData id b ->
        between filteredData a b id
        /\ forall x,
             (between filteredData a b x ->
              includes (InventoryManager.toggleSelect filteredData lastSelectedId id
                          shiftKey prev) x
              = negb (includes prev id))
             /\ (~ between filteredData a b x ->
                 includes (InventoryManager.toggleSelect filteredData lastSelectedId id
                             shiftKey prev) x
                 = includes prev x)).
Proof.
  assert (Hsingle : forall x,
             includes (if negb (includes prev id)
                       then InventoryManager.setAdd id prev
                       else InventoryManager.setDelete id prev) x
             = if x =? id then negb (includes prev id) else includes prev x).
  { intros x. rewrite (String.eqb_sym x id).
    destruct (includes prev id) eqn:E; simpl.
    - rewrite includes_setDelete. now destruct (id =? x).
    - rewrite includes_setAdd. now destruct (id =? x). }
  split.
  - intros Hplain x. unfold InventoryManager.toggleSelect.
    destruct (shiftKey && truthy lastSelectedId) eqn:Eshift; [|apply Hsingle].
    apply andb_true_iff in Eshift as [-> Hlast].
    destruct lastSelectedId as [last|]; [|discriminate].
    cbn [showOpt].
    destruct Hplain as [H|[H|[H|[H|H]]]]; try discriminate.
    + injection H as ->. discriminate.
    + rewrite (findIndex_absent filteredData last); [apply Hsingle|].
      intros r Hin E. apply (H r Hin). now rewrite E.
    + rewrite (findIndex_absent filteredData id H).
      destruct (InventoryManager.findIndex _ filteredData); apply Hsingle.
  - intros last a b -> -> Hne Ha Hb.
    unfold InventoryManager.toggleSelect. cbn [truthy showOpt andb].
    apply String.eqb_neq in Hne. rewrite Hne. cbn [negb].
    rewrite (findIndex_firstPosition _ _ _ Ha), (findIndex_firstPosition _ _ _ Hb).
    split.
    + destruct Hb as [[r [Hnth Hid]] _]. exists b, r. split; [lia | now split].
    + intros x. rewrite includes_fold_toggle. split; intros H.
      * apply includes_range_between in H. now rewrite H.
      * destruct (includes _ x) eqn:E; trivial.
        apply includes_range_between in E. contradiction.
Qed.

(** Rows r1 to r4 on screen, r2 clicked before and r1 selected: a
    shift-click on r4 selects r2, r3 and r4 and keeps r1. *)
Example toggleSelect_shift_click :
  InventoryManager.toggleSelect
    [Scenario.item "r1" InventoryStatus.PENDING; Scenario.item "r2" InventoryStatus.PENDING;
     Scenario.item "r3" InventoryStatus.PENDING; Scenario.item "r4" InventoryStatus.PENDING]
    (Some "r2") "r4" true ["r1"]
  = ["r1"; "r2"; "r3"; "r4"].
Proof. reflexivity. Qed.

(** ** Lines of an uploaded CSV file *)













(** A quoted field keeps its comma. *)
Example parseLine_quoted_comma trim :
  InventoryManager.parseLine trim ("P-1," ++ dq ++ "Lamp, brass" ++ dq ++ ",Acme")
  = [trim "P-1"; trim "Lamp, brass"; trim "Acme"].
Proof. reflexivity. Qed.

(** ** From the automation to the notification *)


